(** * Trace-context propagation of the gRPC interceptors

    A shallow embedding of [contrib/google.golang.org/grpc/grpc.go]: the
    codec ([setIDs], [getIDs], [getID]), [serverSpan] and the two unary
    interceptors, with the parts of the Go standard library, of the gRPC
    metadata package and of the tracer package they call. *)

From Stdlib Require Import ZArith Lia Ascii String.
From stdpp Require Import base option list strings gmap.

Local Open Scope Z_scope.

(** ** Machine integers *)

Module Int.

(** [uint64] and [int] (64 bits wide) are integers in these ranges. *)
Definition maxUint64 : Z := 2 ^ 64 - 1.
Definition intSize : Z := 64.

Definition is_uint64 (n : Z) : Prop := 0 <= n <= maxUint64.
Definition is_int64 (n : Z) : Prop := - 2 ^ 63 <= n < 2 ^ 63.

(** The conversion [uint64(id)] of a signed [int]: two's complement
    wrap-around. *)
Definition uint64 (n : Z) : Z := n mod 2 ^ 64.

(** The conversion [int64(un)] of an unsigned value. *)
Definition int64 (n : Z) : Z := (n + 2 ^ 63) mod 2 ^ 64 - 2 ^ 63.

End Int.

(** ** strconv and fmt *)

Module Strconv.

Import Int.

Inductive NumError := ErrSyntax | ErrRange.

Definition byte_val (c : ascii) : Z := Z.of_N (Ascii.N_of_ascii c).

(** The digit switch of [ParseUint] in base ten: a byte between '0' and
    '9' is the digit [c - '0'], every other byte is a syntax error. *)
Definition digit_of (c : ascii) : option Z :=
  if (48 <=? byte_val c) && (byte_val c <=? 57)
  then Some (byte_val c - 48) else None.

(** [byte('0' + d)]. *)
Definition digit_char (d : Z) : ascii :=
  Ascii.ascii_of_N (Z.to_N (48 + d)).

(** The loop of [ParseUint(s, 10, 64)] over the bytes of [s], with the
    accumulator [n]; [cutoff] is [maxUint64/10 + 1]. *)
Definition cutoff10 : Z := maxUint64 / 10 + 1.

Fixpoint parseUint_loop (s : string) (n : Z) : Z * option NumError :=
  match s with
  | EmptyString => (n, None)
  | String c rest =>
      match digit_of c with
      | None => (0, Some ErrSyntax)
      | Some d =>
          if cutoff10 <=? n then (maxUint64, Some ErrRange)
          else
            let n10 := n * 10 in
            let n1 := (n10 + d) mod 2 ^ 64 in
            if (n1 <? n10) || (maxUint64 <? n1)
            then (maxUint64, Some ErrRange)
            else parseUint_loop rest n1
      end
  end.

Definition ParseUint (s : string) : Z * option NumError :=
  match s with
  | EmptyString => (0, Some ErrSyntax)
  | _ => parseUint_loop s 0
  end.

(** [ParseInt(s, 10, bitSize)] with [bitSize] the width of [int]. *)
Definition ParseInt (s : string) : Z * option NumError :=
  match s with
  | EmptyString => (0, Some ErrSyntax)
  | String c0 rest =>
      let '(neg, s1) :=
        if Ascii.eqb c0 "+" then (false, rest)
        else if Ascii.eqb c0 "-" then (true, rest)
        else (false, s) in
      let '(un, err) := ParseUint s1 in
      match err with
      | Some ErrSyntax => (0, Some ErrSyntax)
      | _ =>
          let cutoff := 2 ^ (intSize - 1) in
          if negb neg && (cutoff <=? un) then (cutoff - 1, Some ErrRange)
          else if neg && (cutoff <? un) then (- cutoff, Some ErrRange)
          else
            let n := int64 un in
            (if neg then int64 (- n) else n, None)
      end
  end.

(** [strconv.Atoi]: [ParseInt(s, 10, 0)] converted to [int]. *)
Definition Atoi (s : string) : Z * option NumError := ParseInt s.

(** [fmt.Sprint] of a [uint64]: the decimal digits, written from the
    last one backwards into a buffer of fixed size; [fuel] bounds the
    number of digits (twenty are enough for 64 bits). *)
Fixpoint fmt_digits (fuel : nat) (u : Z) (buf : string) : string :=
  match fuel with
  | O => buf
  | S fuel' =>
      if 10 <=? u
      then fmt_digits fuel' (u / 10) (String (digit_char (u - u / 10 * 10)) buf)
      else String (digit_char u) buf
  end.

Definition Sprint (u : Z) : string := fmt_digits 20 u EmptyString.

End Strconv.

(** ** A state monad for the calls that change spans and the tracer *)

Definition State (W A : Type) : Type := W -> A * W.

Definition ret {W A} (a : A) : State W A := fun w => (a, w).
Definition bind {W A B} (m : State W A) (k : A -> State W B) : State W B :=
  fun w => let '(a, w') := m w in k a w'.
Definition gets {W A} (f : W -> A) : State W A := fun w => (f w, w).
Definition modify {W} (f : W -> W) : State W unit := fun w => (tt, f w).

Notation "'do' x <- m ; k" := (bind m (fun x => k))
  (at level 10, x name, m at level 100, k at level 200).
Notation "'do' ' pat <- m ; k" := (bind m (fun x => match x with pat => k end))
  (at level 10, pat pattern, m at level 100, k at level 200).
Notation "'run' m ; k" := (bind m (fun _ => k))
  (at level 10, m at level 100, k at level 200).

(** ** google.golang.org/grpc: status codes, metadata, contexts *)

Module Grpc.

Inductive Code :=
| OK | Canceled | Unknown | InvalidArgument | DeadlineExceeded | NotFound
| AlreadyExists | PermissionDenied | ResourceExhausted | FailedPrecondition
| Aborted | OutOfRange | Unimplemented | Internal | Unavailable | DataLoss
| Unauthenticated.

Definition Code_String (c : Code) : string :=
  match c with
  | OK => "OK" | Canceled => "Canceled" | Unknown => "Unknown"
  | InvalidArgument => "InvalidArgument"
  | DeadlineExceeded => "DeadlineExceeded" | NotFound => "NotFound"
  | AlreadyExists => "AlreadyExists"
  | PermissionDenied => "PermissionDenied"
  | ResourceExhausted => "ResourceExhausted"
  | FailedPrecondition => "FailedPrecondition" | Aborted => "Aborted"
  | OutOfRange => "OutOfRange" | Unimplemented => "Unimplemented"
  | Internal => "Internal" | Unavailable => "Unavailable"
  | DataLoss => "DataLoss" | Unauthenticated => "Unauthenticated"
  end.

(** A non-nil Go [error]: one produced by the rpc system, with its
    code, or any other one. A nilable error is an [option error]. *)
Inductive error :=
| rpcError (c : Code) (desc : string)
| otherError (msg : string).

(** [grpc.Code(err)]. *)
Definition Code_of (err : option error) : Code :=
  match err with
  | None => OK
  | Some (rpcError c _) => c
  | Some (otherError _) => Unknown
  end.

(** [metadata.MD] is [map[string][]string]. *)
Abbreviation MD := (gmap string (list string)).

(** [metadata.New]: every value becomes a one-element sequence (the
    keys given by [setIDs] are lower-case already). *)
Definition New (m : gmap string string) : MD := (fun v => [v]) <$> m.

(** [metadata.Join]: for every key, the values of the joined maps
    appended in the order of the arguments. *)
Definition Join (mds : list MD) : MD :=
  foldl (union_with (fun old new => Some (old ++ new))) ∅ mds.

(** A [*tracer.Span] is an address of the span store. *)
Abbreviation SpanPtr := nat.

(** The values of a [context.Context] this package reads and writes:
    the incoming metadata, the outgoing metadata and the active span. *)
Record Context := mkContext {
  incomingMD : option MD;
  outgoingMD : option MD;
  activeSpan : option SpanPtr
}.

Definition FromIncomingContext (ctx : Context) : option MD := incomingMD ctx.

Definition NewOutgoingContext (ctx : Context) (md : MD) : Context :=
  mkContext (incomingMD ctx) (Some md) (activeSpan ctx).

(** What the transport does with a call: the outgoing metadata of the
    client's context arrives as the incoming metadata of the server's. *)
Definition transport (client : Context) : Context :=
  mkContext (outgoingMD client) None None.

Record UnaryServerInfo := mkInfo { FullMethod : string }.

End Grpc.

(** ** The tracer package *)

Module Tracer.

Import Grpc.

Record Span := mkSpan {
  Name : string;
  Service : string;
  Resource : string;
  Type_ : string;
  Meta : gmap string string;
  SpanID : Z;
  TraceID : Z;
  ParentID : Z;
  Error : option error;
  finished : bool
}.

Definition set_Type (ty : string) (s : Span) : Span :=
  mkSpan (Name s) (Service s) (Resource s) ty (Meta s) (SpanID s)
         (TraceID s) (ParentID s) (Error s) (finished s).
Definition set_Meta (m : gmap string string) (s : Span) : Span :=
  mkSpan (Name s) (Service s) (Resource s) (Type_ s) m (SpanID s)
         (TraceID s) (ParentID s) (Error s) (finished s).
Definition set_TraceID (id : Z) (s : Span) : Span :=
  mkSpan (Name s) (Service s) (Resource s) (Type_ s) (Meta s) (SpanID s)
         id (ParentID s) (Error s) (finished s).
Definition set_ParentID (id : Z) (s : Span) : Span :=
  mkSpan (Name s) (Service s) (Resource s) (Type_ s) (Meta s) (SpanID s)
         (TraceID s) id (Error s) (finished s).
Definition set_outcome (err : option error) (s : Span) : Span :=
  mkSpan (Name s) (Service s) (Resource s) (Type_ s) (Meta s) (SpanID s)
         (TraceID s) (ParentID s) err true.

(** The operations of the tracer this package calls, over a tracer
    state [T]: what they build is left to the tracer. [NewChildSpan]
    receives the parent found in the context, if any; [HandOff] is the
    tracer receiving a span that was finished, for export. *)
Class TracerOps (T : Type) := {
  Enabled : T -> bool;
  NewRootSpan : string -> string -> string -> T -> Span * T;
  NewChildSpan : string -> option Span -> T -> Span * T;
  SetServiceInfo : string -> string -> string -> T -> T;
  HandOff : Span -> T -> T;
  AppTypeRPC : string
}.

(** The spans allocated so far, by address, and the tracer. *)
Record World (T : Type) := mkWorld {
  spans : list Span;
  tracer : T
}.
Arguments mkWorld {T} _ _.
Arguments spans {T} _.
Arguments tracer {T} _.

Section Ops.
Context {T : Type} `{TracerOps T}.

Definition alloc (s : Span) : State (World T) SpanPtr :=
  fun w => (length (spans w), mkWorld (spans w ++ [s]) (tracer w)).

Definition update (p : SpanPtr) (f : Span -> Span) : State (World T) unit :=
  modify (fun w => mkWorld (alter f p (spans w)) (tracer w)).

Definition with_tracer {A} (f : T -> A * T) : State (World T) A :=
  fun w => let '(a, t) := f (tracer w) in (a, mkWorld (spans w) t).

(** Modelled from the spec: [Span.SetMeta(key, value)] of the tracer
    package adds a tag to the span's mapping of string keys to
    string values; a finalized span is not mutated any further. *)
Definition SetMeta (p : SpanPtr) (key value : string) : State (World T) unit :=
  update p (fun s =>
    if finished s then s else set_Meta (<[key := value]> (Meta s)) s).

(** Modelled from the spec: [Span.FinishWithErr(err)] of the tracer
    package finalizes the span, recording the error (if any) as the
    span's outcome, and hands the finished span to the tracer for
    export; finalization is terminal: a span that is finished already
    is left as it is and is not handed over again. *)
Definition FinishWithErr (p : SpanPtr) (err : option error) : State (World T) unit :=
  fun w =>
    match spans w !! p with
    | Some s =>
        if finished s then (tt, w)
        else
          let s' := set_outcome
                      (match err with Some e => Some e | None => Error s end) s in
          (tt, mkWorld (<[p := s']> (spans w)) (HandOff s' (tracer w)))
    | None => (tt, w)
    end.

(** Modelled from the spec: [tracer.ContextWithSpan] binds the span
    into the call's execution context. *)
Definition ContextWithSpan (ctx : Context) (p : SpanPtr) : Context :=
  mkContext (incomingMD ctx) (outgoingMD ctx) (Some p).

(** [Tracer.NewRootSpan], allocating the span the tracer builds. *)
Definition newRootSpan (name service resource : string) : State (World T) SpanPtr :=
  do s <- with_tracer (NewRootSpan name service resource);
  alloc s.

(** Modelled from the spec: [tracer.StartSpanWithContext] starts a
    span that derives its identity from the ambient span of the
    context, if any, and returns it with the context that binds it. *)
Definition StartSpanWithContext (ctx : Context) (name : string)
  : State (World T) (SpanPtr * Context) :=
  do parent <- gets (fun w => activeSpan ctx ≫= fun q => spans w !! q);
  do s <- with_tracer (NewChildSpan name parent);
  do p <- alloc s;
  ret (p, ContextWithSpan ctx p).

End Ops.

End Tracer.

(** ** contrib/google.golang.org/grpc/grpc.go *)

Module Contrib.

Import Int Strconv Grpc Tracer.

(** pass trace ids with these headers *)
Definition traceIDKey : string := "x-datadog-trace-id".
Definition parentIDKey : string := "x-datadog-parent-id".

(** The loop of [getID] over the values [md[name]]. *)
Fixpoint getID_values (vs : list string) : Z :=
  match vs with
  | [] => 0
  | str :: rest =>
      let '(id, err) := Atoi str in
      match err with
      | None => uint64 id
      | Some _ => getID_values rest
      end
  end.

(** getID parses an id from the metadata. *)
Definition getID (md : MD) (name : string) : Z :=
  getID_values (default [] (md !! name)).

(** getIDs will return ids embedded in the context. *)
Definition getIDs (ctx : Context) : Z * Z :=
  match FromIncomingContext ctx with
  | Some md =>
      let traceID := let id := getID md traceIDKey in if 0 <? id then id else 0 in
      let parentID := let id := getID md parentIDKey in if 0 <? id then id else 0 in
      (traceID, parentID)
  | None => (0, 0)
  end.

(** setIDs will set the trace ids on the context; [span] is [None] for
    a nil pointer. *)
Definition setIDs (span : option Span) (ctx : Context) : Context :=
  match span with
  | None => ctx
  | Some sp =>
      if TraceID sp =? 0 then ctx
      else
        let md := New (<[traceIDKey := Sprint (TraceID sp)]>
                        (<[parentIDKey := Sprint (ParentID sp)]> ∅)) in
        let md := match FromIncomingContext ctx with
                  | Some existing => Join [existing; md]
                  | None => md
                  end in
        NewOutgoingContext ctx md
  end.

Record interceptorConfig := mkConfig { serviceName : string }.

Definition InterceptorOption : Type := interceptorConfig -> interceptorConfig.

(** [defaults] is declared in another file of the package. *)
Class Defaults := { defaults : interceptorConfig -> interceptorConfig }.

(** The tracer of the configuration ([cfg.tracer]) and the tracer behind
    [tracer.StartSpanWithContext] are the one tracer of the world. *)
Section Interceptors.
Context {T : Type} `{TracerOps T} `{Defaults}.
Context {Value ClientConn CallOption : Type}.

Definition UnaryHandler : Type :=
  Context -> Value -> State (World T) (Value * option error).

Definition UnaryInvoker : Type :=
  Context -> string -> Value -> Value -> ClientConn -> list CallOption ->
  State (World T) (option error).

Definition serverSpan (ctx : Context) (method service : string)
  : State (World T) SpanPtr :=
  do span <- newRootSpan "grpc.server" service method;
  run SetMeta span "gprc.method" method;
  run update span (set_Type "go");
  let '(traceID, parentID) := getIDs ctx in
  run (if negb (traceID =? 0) && negb (parentID =? 0)
       then (run update span (set_TraceID traceID);
             update span (set_ParentID parentID))
       else ret tt);
  ret span.

Definition configure (opts : list InterceptorOption) (name : string)
  : interceptorConfig :=
  let cfg := defaults (mkConfig "") in
  let cfg := foldl (fun c fn => fn c) cfg opts in
  if String.eqb (serviceName cfg) "" then mkConfig name else cfg.

(** UnaryServerInterceptor will trace requests to the given grpc
    server. *)
Definition UnaryServerInterceptor (opts : list InterceptorOption)
  : State (World T)
      (Context -> Value -> UnaryServerInfo -> UnaryHandler ->
       State (World T) (Value * option error)) :=
  let cfg := configure opts "grpc.server" in
  run with_tracer (fun t =>
        (tt, SetServiceInfo (serviceName cfg) "grpc-server" AppTypeRPC t));
  ret (fun ctx req info handler =>
    do enabled <- gets (fun w => Enabled (tracer w));
    if negb enabled then handler ctx req
    else
      do span <- serverSpan ctx (FullMethod info) (serviceName cfg);
      do '(resp, err) <- handler (ContextWithSpan ctx span) req;
      run FinishWithErr span err;
      ret (resp, err)).

(** UnaryClientInterceptor will add tracing to a grpc client. *)
Definition UnaryClientInterceptor (opts : list InterceptorOption)
  : State (World T)
      (Context -> string -> Value -> Value -> ClientConn -> UnaryInvoker ->
       list CallOption -> State (World T) (option error)) :=
  let cfg := configure opts "grpc.client" in
  run with_tracer (fun t =>
        (tt, SetServiceInfo (serviceName cfg) "grpc-client" AppTypeRPC t));
  ret (fun ctx method req reply cc invoker callopts =>
    do '(span, ctx) <- StartSpanWithContext ctx "grpc.client";
    run SetMeta span "grpc.method" method;
    do ctx <- gets (fun w => setIDs (spans w !! span) ctx);
    do err <- invoker ctx method req reply cc callopts;
    run SetMeta span "grpc.code" (Code_String (Code_of err));
    run FinishWithErr span err;
    ret err).

End Interceptors.

End Contrib.

(** ** Notions to state the codec's properties with *)

Module Codec.

Import Int Strconv Grpc Tracer Contrib.

(** The first value of a sequence that [Atoi] accepts, as the signed
    number it parses to. *)
Fixpoint first_parsed (vs : list string) : option Z :=
  match vs with
  | [] => None
  | str :: rest =>
      match Atoi str with
      | (v, None) => Some v
      | (_, Some _) => first_parsed rest
      end
  end.

(** The two entries [setIDs] builds for a span. *)
Definition trace_entries (sp : Span) : MD :=
  New (<[traceIDKey := Sprint (TraceID sp)]>
        (<[parentIDKey := Sprint (ParentID sp)]> ∅)).

(** The values [setIDs] injects under a key. *)
Definition injected (sp : Span) (k : string) : list string :=
  if decide (k = traceIDKey) then [Sprint (TraceID sp)]
  else if decide (k = parentIDKey) then [Sprint (ParentID sp)]
  else [].

(** The incoming metadata of a context has no parseable value under
    the two keys. *)
Definition no_inbound_ids (ctx : Context) : Prop :=
  forall k, k = traceIDKey \/ k = parentIDKey ->
    first_parsed (default [] (FromIncomingContext ctx ≫= fun e => e !! k)) = None.

(** A key of the carrier holds a usable identifier when [getID] finds a
    non-zero one under it; a partial pair has exactly one. *)
Definition usable (md : MD) (k : string) : Prop := getID md k ≠ 0.

Definition partial_pair (md : MD) : Prop :=
  (usable md traceIDKey /\ ~ usable md parentIDKey) \/
  (~ usable md traceIDKey /\ usable md parentIDKey).

End Codec.

(** ** What the interceptors hand to the wrapped call *)

Module Calls.

Import Int Strconv Grpc Tracer Contrib.

Section Calls.
Context {T : Type} `{TracerOps T} `{Defaults}.
Context {Value ClientConn CallOption : Type}.

(** The span [serverSpan] leaves at the new address, from the span
    [s0] the tracer built. *)
Definition server_span_of (ctx : Context) (method : string) (s0 : Span) : Span :=
  let s1 := if finished s0 then s0
            else set_Meta (<["gprc.method" := method]> (Meta s0)) s0 in
  let s2 := set_Type "go" s1 in
  let '(traceID, parentID) := getIDs ctx in
  if negb (traceID =? 0) && negb (parentID =? 0)
  then set_ParentID parentID (set_TraceID traceID s2)
  else s2.

(** The context and the world the server interceptor hands to the
    wrapped handler. *)
Definition server_call (opts : list InterceptorOption) (ctx : Context)
    (info : UnaryServerInfo) (w : World T) : Context * World T :=
  if Enabled (tracer w)
  then
    let '(p, w1) := serverSpan ctx (FullMethod info)
                      (serviceName (configure opts "grpc.server")) w in
    (ContextWithSpan ctx p, w1)
  else (ctx, w).

(** The span, the context and the world the client interceptor hands
    to the wrapped invoker. *)
Definition client_call (ctx : Context) (method : string) (w : World T)
  : SpanPtr * Context * World T :=
  let '((p, ctx1), w1) := StartSpanWithContext ctx "grpc.client" w in
  let w2 := snd (SetMeta p "grpc.method" method w1) in
  (p, setIDs (spans w2 !! p) ctx1, w2).

(** The server interceptor [icpt], called with [ctx] and [info] in the
    world [w], runs the wrapped handler on the context [ctx'] in the
    world [w1] and owns the span [p]: whatever the request and the
    handler, its run is the handler's run from there, then
    [FinishWithErr] on [p], and its result is the handler's. *)
Definition server_invokes
    (icpt : Context -> Value -> UnaryServerInfo -> @UnaryHandler T Value ->
            State (World T) (Value * option error))
    (ctx : Context) (info : UnaryServerInfo) (w : World T)
    (p : SpanPtr) (ctx' : Context) (w1 : World T) : Prop :=
  forall (req : Value) (handler : @UnaryHandler T Value),
    icpt ctx req info handler w
    = let '((resp, err), w2) := handler ctx' req w1 in
      ((resp, err), snd (FinishWithErr p err w2)).

(** The client interceptor [icpt], called with [ctx] and [method] in the
    world [w], runs the wrapped invoker on the context [ctx'] in the
    world [w1] and owns the span [p]: whatever the invoker and the other
    arguments, its run is the invoker's run from there, then the tag
    "grpc.code" and [FinishWithErr] on [p], and its result is the
    invoker's. *)
Definition client_invokes
    (icpt : Context -> string -> Value -> Value -> ClientConn ->
            @UnaryInvoker T Value ClientConn CallOption -> list CallOption ->
            State (World T) (option error))
    (ctx : Context) (method : string) (w : World T)
    (p : SpanPtr) (ctx' : Context) (w1 : World T) : Prop :=
  forall (req reply : Value) (cc : ClientConn)
         (invoker : @UnaryInvoker T Value ClientConn CallOption)
         (callopts : list CallOption),
    icpt ctx method req reply cc invoker callopts w
    = let '(err, w2) := invoker ctx' method req reply cc callopts w1 in
      (err, snd (FinishWithErr p err
                   (snd (SetMeta p "grpc.code" (Code_String (Code_of err)) w2)))).

(** What [FinishWithErr] leaves of a span that was not finished. *)
Definition finished_with (err : option error) (s : Span) : Span :=
  set_outcome (match err with Some e => Some e | None => Error s end) s.

End Calls.

End Calls.

(** ** A tracer to run the interceptors on *)

Module Demo.

Import Grpc Tracer Contrib.

(** The state of this tracer: whether tracing is enabled, the next
    identifier to hand out, the services registered and the finished
    spans it received, the last one first. *)
Record DemoTracer := mkDemo {
  on : bool;
  next : Z;
  services : list (string * string * string);
  exported : list Span
}.

Definition demo_root (name service resource : string) (t : DemoTracer)
  : Span * DemoTracer :=
  (mkSpan name service resource "" ∅ (next t) (next t) 0 None false,
   mkDemo (on t) (next t + 1) (services t) (exported t)).

Definition demo_child (name : string) (parent : option Span) (t : DemoTracer)
  : Span * DemoTracer :=
  (match parent with
   | Some ps =>
       mkSpan name (Service ps) name "" ∅ (next t) (TraceID ps) (SpanID ps)
              None false
   | None => mkSpan name "" name "" ∅ (next t) (next t) (next t) None false
   end,
   mkDemo (on t) (next t + 1) (services t) (exported t)).

#[export] Instance demo_ops : TracerOps DemoTracer := {|
  Enabled := on;
  NewRootSpan := demo_root;
  NewChildSpan := demo_child;
  SetServiceInfo := fun s k a t =>
    mkDemo (on t) (next t) ((s, k, a) :: services t) (exported t);
  HandOff := fun s t =>
    mkDemo (on t) (next t) (services t) (s :: exported t);
  AppTypeRPC := "rpc"
|}.

#[export] Instance demo_defaults : Defaults := {| defaults := fun c => c |}.

Definition world (enabled : bool) : World DemoTracer :=
  mkWorld [] (mkDemo enabled 41 [] []).

Definition emptyCtx : Context := mkContext None None None.

(** A handler that answers with its request and fails with NotFound. *)
Definition failing_handler : @UnaryHandler DemoTracer string :=
  fun _ req => ret (req, Some (rpcError NotFound "no such thing")).

(** A handler that tags the active span and succeeds. *)
Definition tagging_handler : @UnaryHandler DemoTracer string :=
  fun ctx req =>
    run (match activeSpan ctx with
         | Some p => SetMeta p "seen" req
         | None => ret tt
         end);
    ret (req, None).

Definition failing_invoker : @UnaryInvoker DemoTracer string unit unit :=
  fun _ _ _ _ _ _ => ret (Some (rpcError Unavailable "down")).

(** An invoker that reports, as an error, the tag "grpc.method" of the
    span bound in its context. *)
Definition tag_probing_invoker : @UnaryInvoker DemoTracer string unit unit :=
  fun ctx _ _ _ _ _ =>
    do tag <- gets (fun w =>
      activeSpan ctx ≫= fun p => spans w !! p ≫= fun s => Meta s !! "grpc.method");
    ret (Some (otherError (default "none" tag))).

(** An invoker that reports, as an error, the values of the trace key in
    the outgoing metadata of its context. *)
Definition carrier_probing_invoker : @UnaryInvoker DemoTracer string unit unit :=
  fun ctx _ _ _ _ _ =>
    ret (Some (otherError
      (String.concat ","
         (default ["none"] (outgoingMD ctx ≫= fun md => md !! traceIDKey))))).

(** A handler that reports, as an error, the tag "gprc.method" of the
    span bound in its context. *)
Definition probing_handler : @UnaryHandler DemoTracer string :=
  fun ctx req =>
    do tag <- gets (fun w =>
      activeSpan ctx ≫= fun p => spans w !! p ≫= fun s => Meta s !! "gprc.method");
    ret (req, Some (otherError (default "none" tag))).

Definition info : UnaryServerInfo := mkInfo "/pkg.Service/Method".

(** A client span with the given identifiers. *)
Definition span_with (traceID parentID : Z) : Span :=
  mkSpan "grpc.client" "" "grpc.client" "" ∅ 7 traceID parentID None false.

(** Contexts of inbound calls that carry one identifier only. *)
Definition onlyTraceCtx : Context :=
  mkContext (Some {[traceIDKey := ["5"]]}) None None.
Definition onlyParentCtx : Context :=
  mkContext (Some {[parentIDKey := ["junk"; "7"]]}) None None.

(** The context of an inbound call that carries both identifiers. *)
Definition bothIDsCtx : Context :=
  mkContext (Some {[traceIDKey := ["12"]; parentIDKey := ["34"]]}) None None.

(** A context whose outgoing metadata was set by an earlier layer. *)
Definition requestIdCtx : Context :=
  mkContext None (Some {["x-request-id" := ["abc"]]}) None.

(** A context of a server call that received metadata and has outgoing
    metadata of its own. *)
Definition serverCallCtx : Context :=
  mkContext (Some {["authorization" := ["secret"]; traceIDKey := ["99"]]})
            (Some {["x-request-id" := ["abc"]]}) None.

End Demo.

(** * Proofs

    ** Facts about parsing and printing *)

Module StrconvFacts.

Import Int Strconv.

Lemma digit_of_char (d : Z) : 0 <= d < 10 -> digit_of (digit_char d) = Some d.
Proof.
  intros Hd.
  assert (Hc : d = 0 \/ d = 1 \/ d = 2 \/ d = 3 \/ d = 4 \/ d = 5 \/ d = 6
               \/ d = 7 \/ d = 8 \/ d = 9) by lia.
  repeat (destruct Hc as [-> | Hc]; [reflexivity |]).
  subst d; reflexivity.
Qed.

Lemma digit_char_not_sign (d : Z) :
  0 <= d < 10 ->
  Ascii.eqb (digit_char d) "+" = false /\ Ascii.eqb (digit_char d) "-" = false.
Proof.
  intros Hd.
  assert (Hc : d = 0 \/ d = 1 \/ d = 2 \/ d = 3 \/ d = 4 \/ d = 5 \/ d = 6
               \/ d = 7 \/ d = 8 \/ d = 9) by lia.
  repeat (destruct Hc as [-> | Hc]; [split; reflexivity |]).
  subst d; split; reflexivity.
Qed.

(** One digit of the loop, when the value still fits 64 bits. *)
Lemma parseUint_loop_digit (d n : Z) (rest : string) :
  0 <= d < 10 -> 0 <= n -> n * 10 + d <= maxUint64 ->
  parseUint_loop (String (digit_char d) rest) n
  = parseUint_loop rest (n * 10 + d).
Proof.
  intros Hd Hn Hfit. cbn [parseUint_loop].
  rewrite digit_of_char by assumption.
  unfold cutoff10, maxUint64 in *.
  change (2 ^ 64 - 1) with 18446744073709551615 in *.
  change (18446744073709551615 / 10 + 1) with 1844674407370955162.
  change (2 ^ 64) with 18446744073709551616.
  destruct (Z.leb_spec 1844674407370955162 n); [lia |].
  rewrite Z.mod_small by lia.
  destruct (Z.ltb_spec (n * 10 + d) (n * 10)); [lia |].
  destruct (Z.ltb_spec 18446744073709551615 (n * 10 + d)); [lia |].
  reflexivity.
Qed.

(** Parsing what was printed in front of [buf] continues on [buf] from
    the printed number. *)
Lemma parseUint_loop_fmt (fuel : nat) :
  forall (u : Z) (buf : string),
    0 <= u < 10 ^ Z.of_nat fuel -> u <= maxUint64 ->
    parseUint_loop (fmt_digits fuel u buf) 0 = parseUint_loop buf u.
Proof.
  induction fuel as [| fuel IH]; intros u buf Hu Hfit.
  - cbn in Hu. assert (u = 0) by lia. subst u. reflexivity.
  - cbn [fmt_digits].
    rewrite Nat2Z.inj_succ, Z.pow_succ_r in Hu by lia.
    destruct (Z.leb_spec 10 u) as [Hge | Hlt].
    + rewrite IH.
      * rewrite parseUint_loop_digit.
        -- f_equal. lia.
        -- pose proof (Z.mul_div_le u 10 ltac:(lia)).
           pose proof (Z.mod_pos_bound u 10 ltac:(lia)).
           pose proof (Z.div_mod u 10 ltac:(lia)). lia.
        -- apply Z.div_pos; lia.
        -- lia.
      * split; [apply Z.div_pos; lia |].
        apply Z.div_lt_upper_bound; lia.
      * pose proof (Z.mul_div_le u 10 ltac:(lia)).
        assert (0 <= u / 10) by (apply Z.div_pos; lia). unfold maxUint64 in *. lia.
    + replace u with (0 * 10 + u) at 2 by lia.
      rewrite <- parseUint_loop_digit; [reflexivity | lia | lia |].
      unfold maxUint64 in *. lia.
Qed.

(** The printed string starts with a digit. *)
Lemma fmt_digits_head (fuel : nat) :
  forall (u : Z) (buf : string),
    0 <= u ->
    exists d rest, 0 <= d < 10 /\
      fmt_digits (S fuel) u buf = String (digit_char d) rest.
Proof.
  induction fuel as [| fuel IH]; intros u buf Hu.
  - cbn [fmt_digits]. destruct (Z.leb_spec 10 u).
    + exists (u - u / 10 * 10), buf. split; [| reflexivity].
      pose proof (Z.mod_pos_bound u 10 ltac:(lia)).
      pose proof (Z.div_mod u 10 ltac:(lia)). lia.
    + exists u, buf. split; [lia | reflexivity].
  - remember (S fuel) as f eqn:Hf.
    cbn [fmt_digits]. destruct (Z.leb_spec 10 u).
    + subst f. apply IH. apply Z.div_pos; lia.
    + exists u, buf. split; [lia | reflexivity].
Qed.

Example Atoi_samples :
  Atoi "123" = (123, None) /\ Atoi "+7" = (7, None) /\ Atoi "-5" = (-5, None) /\
  Atoi "" = (0, Some ErrSyntax) /\ Atoi "12a" = (0, Some ErrSyntax) /\
  Atoi "9223372036854775807" = (9223372036854775807, None) /\
  Atoi "9223372036854775808" = (9223372036854775807, Some ErrRange) /\
  Atoi "-9223372036854775808" = (-9223372036854775808, None).
Proof. repeat split. Qed.

Example Sprint_samples :
  Sprint 0 = "0" /\ Sprint 907 = "907" /\
  Sprint 18446744073709551615 = "18446744073709551615".
Proof. repeat split. Qed.

Lemma ParseUint_Sprint (u : Z) :
  is_uint64 u -> ParseUint (Sprint u) = (u, None).
Proof.
  intros [Hlo Hhi]. unfold Sprint.
  destruct (fmt_digits_head 19 u EmptyString Hlo) as (d & rest & Hd & Heq).
  unfold ParseUint. rewrite Heq, <- Heq.
  rewrite parseUint_loop_fmt; [reflexivity | | assumption].
  unfold maxUint64 in Hhi.
  change (10 ^ Z.of_nat 20) with 100000000000000000000.
  change (2 ^ 64 - 1) with 18446744073709551615 in Hhi. lia.
Qed.

(** [Atoi] reads back a printed [uint64] exactly when it is below
    [2^63]; from there on it reports a range error. *)
Lemma Atoi_Sprint (u : Z) :
  0 <= u < 2 ^ 63 -> Atoi (Sprint u) = (u, None).
Proof.
  intros Hu. unfold Atoi, ParseInt.
  destruct (fmt_digits_head 19 u EmptyString (proj1 Hu)) as (d & rest & Hd & Heq).
  fold (Sprint u) in Heq.
  destruct (digit_char_not_sign d Hd) as [Hplus Hminus].
  rewrite Heq, Hplus, Hminus, <- Heq.
  rewrite ParseUint_Sprint.
  2:{ unfold is_uint64, maxUint64.
      change (2 ^ 64 - 1) with 18446744073709551615.
      change (2 ^ 63) with 9223372036854775808 in Hu. lia. }
  unfold intSize. change (2 ^ (64 - 1)) with 9223372036854775808.
  change (2 ^ 63) with 9223372036854775808 in Hu.
  cbn [negb andb].
  destruct (Z.leb_spec 9223372036854775808 u); [lia |].
  unfold int64. change (2 ^ 63) with 9223372036854775808.
  change (2 ^ 64) with 18446744073709551616.
  rewrite Z.mod_small by lia. f_equal. lia.
Qed.

Lemma Atoi_Sprint_range (u : Z) :
  2 ^ 63 <= u <= maxUint64 -> snd (Atoi (Sprint u)) = Some ErrRange.
Proof.
  intros Hu. unfold Atoi, ParseInt.
  assert (Hlo : 0 <= u) by (change (2 ^ 63) with 9223372036854775808 in Hu; lia).
  destruct (fmt_digits_head 19 u EmptyString Hlo) as (d & rest & Hd & Heq).
  fold (Sprint u) in Heq.
  destruct (digit_char_not_sign d Hd) as [Hplus Hminus].
  rewrite Heq, Hplus, Hminus, <- Heq.
  rewrite ParseUint_Sprint by (unfold is_uint64; lia).
  unfold intSize. change (2 ^ (64 - 1)) with 9223372036854775808.
  change (2 ^ 63) with 9223372036854775808 in Hu.
  cbn [negb andb].
  destruct (Z.leb_spec 9223372036854775808 u); [reflexivity | lia].
Qed.

Lemma int64_range (n : Z) : is_int64 (int64 n).
Proof.
  unfold is_int64, int64.
  change (2 ^ 63) with 9223372036854775808.
  change (2 ^ 64) with 18446744073709551616.
  pose proof (Z.mod_pos_bound (n + 9223372036854775808) 18446744073709551616 eq_refl).
  lia.
Qed.

(** What [Atoi] returns without an error is an [int]. *)
Lemma Atoi_ok_range (s : string) (v : Z) : Atoi s = (v, None) -> is_int64 v.
Proof.
  unfold Atoi, ParseInt. destruct s as [| c0 rest]; [discriminate |].
  destruct (if Ascii.eqb c0 "+" then (false, rest)
            else if Ascii.eqb c0 "-" then (true, rest)
            else (false, String c0 rest)) as [neg s1].
  destruct (ParseUint s1) as [un [[] |]]; [discriminate | |].
  - destruct (negb neg && (2 ^ (intSize - 1) <=? un)); [discriminate |].
    destruct (neg && (2 ^ (intSize - 1) <? un)); [discriminate |].
    intros [= <-]. destruct neg; apply int64_range.
  - destruct (negb neg && (2 ^ (intSize - 1) <=? un)); [discriminate |].
    destruct (neg && (2 ^ (intSize - 1) <? un)); [discriminate |].
    intros [= <-]. destruct neg; apply int64_range.
Qed.

End StrconvFacts.

(** ** Facts about decoding *)

Module Decode.

Import Int Strconv StrconvFacts Grpc Tracer Contrib Codec.

Lemma uint64_range (n : Z) : 0 <= uint64 n < 2 ^ 64.
Proof. unfold uint64. apply Z.mod_pos_bound. reflexivity. Qed.

Lemma uint64_small (n : Z) : 0 <= n < 2 ^ 64 -> uint64 n = n.
Proof. intros Hn. unfold uint64. apply Z.mod_small. exact Hn. Qed.

Lemma getID_values_first_parsed (vs : list string) :
  getID_values vs = from_option uint64 0 (first_parsed vs).
Proof.
  induction vs as [| str rest IH]; [reflexivity |].
  cbn [getID_values first_parsed].
  destruct (Atoi str) as [v [e |]]; [exact IH | reflexivity].
Qed.

Lemma first_parsed_app (vs ws : list string) :
  first_parsed (vs ++ ws)
  = match first_parsed vs with
    | Some v => Some v
    | None => first_parsed ws
    end.
Proof.
  induction vs as [| str rest IH]; cbn [app first_parsed].
  - destruct (first_parsed ws); reflexivity.
  - destruct (Atoi str) as [v [e |]]; [exact IH | reflexivity].
Qed.

Lemma getID_range (md : MD) (name : string) : 0 <= getID md name < 2 ^ 64.
Proof.
  unfold getID. rewrite getID_values_first_parsed.
  destruct (first_parsed _); cbn; [apply uint64_range | lia].
Qed.

(** [getIDs] keeps each identifier as [getID] found it: the test
    [id > 0] only leaves out what is zero already. *)
Lemma getIDs_incoming (ctx : Context) (md : MD) :
  FromIncomingContext ctx = Some md ->
  getIDs ctx = (getID md traceIDKey, getID md parentIDKey).
Proof.
  intros Hmd. unfold getIDs. rewrite Hmd. cbv zeta.
  pose proof (getID_range md traceIDKey) as Ht.
  pose proof (getID_range md parentIDKey) as Hp.
  destruct (Z.ltb_spec 0 (getID md traceIDKey));
    destruct (Z.ltb_spec 0 (getID md parentIDKey)); f_equal; lia.
Qed.

Lemma getID_absent (md : MD) (name : string) :
  md !! name = None -> getID md name = 0.
Proof. intros Hk. unfold getID. rewrite Hk. reflexivity. Qed.

Lemma getID_present (md : MD) (name : string) (vs : list string) :
  md !! name = Some vs ->
  getID md name = from_option uint64 0 (first_parsed vs).
Proof.
  intros Hk. unfold getID. rewrite Hk. apply getID_values_first_parsed.
Qed.

Lemma keys_differ : traceIDKey ≠ parentIDKey.
Proof. discriminate. Qed.

Lemma first_parsed_range (vs : list string) (v : Z) :
  first_parsed vs = Some v -> is_int64 v.
Proof.
  induction vs as [| str rest IH]; [discriminate |].
  cbn [first_parsed]. destruct (Atoi str) as [v' [e |]] eqn:Hstr.
  - exact IH.
  - intros [= <-]. exact (Atoi_ok_range str v' Hstr).
Qed.

(** The wrap-around of [uint64(id)] keeps what is not negative and
    never sends a non-zero [int] to zero. *)
Lemma uint64_of_int (v : Z) :
  is_int64 v -> (0 <= v -> uint64 v = v) /\ (v ≠ 0 -> uint64 v ≠ 0).
Proof.
  unfold is_int64, uint64. change (2 ^ 63) with 9223372036854775808.
  change (2 ^ 64) with 18446744073709551616. intros Hv. split.
  - intros Hpos. apply Z.mod_small. lia.
  - intros Hne Hz.
    destruct (Z.le_gt_cases 0 v) as [Hpos | Hneg].
    + rewrite Z.mod_small in Hz by lia. contradiction.
    + assert (Hw : v + 18446744073709551616 = v mod 18446744073709551616)
        by (apply Z.mod_unique with (q := -1); lia).
      lia.
Qed.

End Decode.

(** ** Facts about encoding *)

Module Encode.

Import Int Strconv StrconvFacts Grpc Tracer Contrib Codec Decode.

Lemma trace_entries_lookup (sp : Span) (k : string) :
  trace_entries sp !! k
  = if decide (k = traceIDKey) then Some [Sprint (TraceID sp)]
    else if decide (k = parentIDKey) then Some [Sprint (ParentID sp)]
    else None.
Proof.
  unfold trace_entries, New. rewrite lookup_fmap.
  destruct (decide (k = traceIDKey)) as [-> | Ht].
  - rewrite lookup_insert_eq. reflexivity.
  - rewrite lookup_insert_ne by congruence.
    destruct (decide (k = parentIDKey)) as [-> | Hp].
    + rewrite lookup_insert_eq. reflexivity.
    + rewrite lookup_insert_ne by congruence. rewrite lookup_empty. reflexivity.
Qed.

Lemma Join_two_lookup (a b : MD) (k : string) :
  Join [a; b] !! k
  = union_with (fun old new => Some (old ++ new)) (a !! k) (b !! k).
Proof.
  unfold Join. cbn [foldl].
  rewrite !lookup_union_with, lookup_empty.
  destruct (a !! k), (b !! k); reflexivity.
Qed.

(** The carrier [setIDs] installs when the span has a trace. *)
Lemma setIDs_outgoing (sp : Span) (ctx : Context) :
  TraceID sp ≠ 0 ->
  setIDs (Some sp) ctx
  = NewOutgoingContext ctx
      (match FromIncomingContext ctx with
       | Some existing => Join [existing; trace_entries sp]
       | None => trace_entries sp
       end).
Proof.
  intros Ht. unfold setIDs.
  destruct (Z.eqb_spec (TraceID sp) 0); [contradiction | reflexivity].
Qed.

(** Under every key, the carrier holds the incoming values followed
    by the injected ones. *)
Lemma setIDs_values (sp : Span) (ctx : Context) (k : string) :
  TraceID sp ≠ 0 ->
  exists md,
    outgoingMD (setIDs (Some sp) ctx) = Some md /\
    default [] (md !! k)
    = default [] (FromIncomingContext ctx ≫= fun e => e !! k) ++ injected sp k.
Proof.
  intros Ht. rewrite setIDs_outgoing by assumption.
  eexists; split; [reflexivity |].
  unfold injected.
  destruct (FromIncomingContext ctx) as [existing |]; cbn [mbind option_bind].
  - rewrite Join_two_lookup, trace_entries_lookup.
    destruct (existing !! k) as [vs |];
      repeat case_decide; cbn; rewrite ?app_nil_r; reflexivity.
  - rewrite trace_entries_lookup.
    repeat case_decide; reflexivity.
Qed.

(** Reading a key of the carrier on the server side. *)
Lemma getID_setIDs (sp : Span) (ctx : Context) (k : string) :
  TraceID sp ≠ 0 ->
  exists md,
    FromIncomingContext (transport (setIDs (Some sp) ctx)) = Some md /\
    getID md k
    = getID_values
        (default [] (FromIncomingContext ctx ≫= fun e => e !! k) ++ injected sp k).
Proof.
  intros Ht. destruct (setIDs_values sp ctx k Ht) as (md & Hmd & Hk).
  exists md. split; [exact Hmd |]. unfold getID. rewrite Hk. reflexivity.
Qed.

(** Encode then decode, for identifiers that fit 63 bits and a context
    without inbound identifiers. *)
Lemma roundtrip_below_2_63 (sp : Span) (ctx : Context) :
  0 < TraceID sp < 2 ^ 63 -> 0 <= ParentID sp < 2 ^ 63 ->
  no_inbound_ids ctx ->
  getIDs (transport (setIDs (Some sp) ctx)) = (TraceID sp, ParentID sp).
Proof.
  intros Ht Hp Hin.
  assert (Hne : TraceID sp ≠ 0) by lia.
  destruct (getID_setIDs sp ctx traceIDKey Hne) as (md & Hmd & Hkt).
  destruct (getID_setIDs sp ctx parentIDKey Hne) as (md' & Hmd' & Hkp).
  rewrite Hmd in Hmd'. injection Hmd' as <-.
  rewrite (getIDs_incoming _ md Hmd), Hkt, Hkp.
  rewrite !getID_values_first_parsed, !first_parsed_app.
  rewrite !Hin by auto.
  unfold injected. rewrite decide_True by reflexivity.
  rewrite decide_False by (symmetry; apply keys_differ).
  rewrite decide_True by reflexivity.
  cbn [first_parsed]. rewrite !Atoi_Sprint by lia. cbn.
  change (2 ^ 63) with 9223372036854775808 in *.
  rewrite !uint64_small; [reflexivity | |];
    change (2 ^ 64) with 18446744073709551616; lia.
Qed.

(** From [2^63] on, the printed trace identifier is not read back. *)
Lemma roundtrip_lost_from_2_63 (sp : Span) (ctx : Context) :
  2 ^ 63 <= TraceID sp <= maxUint64 ->
  no_inbound_ids ctx ->
  fst (getIDs (transport (setIDs (Some sp) ctx))) = 0.
Proof.
  intros Ht Hin.
  assert (Hne : TraceID sp ≠ 0)
    by (change (2 ^ 63) with 9223372036854775808 in Ht; lia).
  destruct (getID_setIDs sp ctx traceIDKey Hne) as (md & Hmd & Hkt).
  rewrite (getIDs_incoming _ md Hmd), Hkt. cbn [fst].
  rewrite getID_values_first_parsed, first_parsed_app.
  rewrite Hin by auto.
  unfold injected. rewrite decide_True by reflexivity.
  cbn [first_parsed].
  pose proof (Atoi_Sprint_range (TraceID sp) Ht) as Herr.
  destruct (Atoi (Sprint (TraceID sp))) as [v e]. cbn in Herr. subst e.
  reflexivity.
Qed.

End Encode.

(** ** Facts about the interceptors *)

Module CallFacts.

Import Int Strconv Grpc Tracer Contrib Calls.

Section CallFacts.
Context {T : Type} `{TracerOps T} `{Defaults}.
Context {Value ClientConn CallOption : Type}.

Lemma alter_new (f : Span -> Span) (l : list Span) (s : Span) :
  alter f (length l) (l ++ [s]) = l ++ [f s].
Proof.
  rewrite <- (Nat.add_0_r (length l)). rewrite alter_app_r. reflexivity.
Qed.

Lemma lookup_new (l : list Span) (s : Span) :
  (l ++ [s]) !! length l = Some s.
Proof. apply list_lookup_middle. reflexivity. Qed.

Lemma serverSpan_run (ctx : Context) (method service : string) (w : World T) :
  serverSpan ctx method service w
  = let '(s0, t1) := NewRootSpan "grpc.server" service method (tracer w) in
    (length (spans w),
     mkWorld (spans w ++ [server_span_of ctx method s0]) t1).
Proof.
  unfold serverSpan, server_span_of, newRootSpan, SetMeta, update, modify,
    with_tracer, alloc, bind, ret.
  destruct (NewRootSpan "grpc.server" service method (tracer w)) as [s0 t1].
  cbn [spans tracer].
  destruct (getIDs ctx) as [traceID parentID].
  destruct (negb (traceID =? 0) && negb (parentID =? 0));
    cbn [spans tracer]; rewrite !alter_new; reflexivity.
Qed.

Lemma update_lookup (p : SpanPtr) (f : Span -> Span) (w : World T) (s : Span) :
  spans w !! p = Some s ->
  spans (snd (update p f w)) !! p = Some (f s).
Proof.
  intros Hs. unfold update, modify. cbn [snd spans].
  rewrite list_lookup_alter_eq, Hs. reflexivity.
Qed.

Lemma FinishWithErr_lookup (p : SpanPtr) (err : option error)
    (w : World T) (s : Span) :
  spans w !! p = Some s -> finished s = false ->
  spans (snd (FinishWithErr p err w)) !! p = Some (finished_with err s).
Proof.
  intros Hs Hf. unfold FinishWithErr, finished_with.
  rewrite Hs, Hf. cbn [snd spans].
  apply list_lookup_insert_eq. apply lookup_lt_Some in Hs. exact Hs.
Qed.

Lemma SetMeta_lookup (p : SpanPtr) (key value : string)
    (w : World T) (s : Span) :
  spans w !! p = Some s -> finished s = false ->
  spans (snd (SetMeta p key value w)) !! p
  = Some (set_Meta (<[key := value]> (Meta s)) s).
Proof.
  intros Hs Hf. unfold SetMeta.
  rewrite (update_lookup _ _ _ _ Hs), Hf. reflexivity.
Qed.

Lemma server_disabled (opts : list InterceptorOption) (w0 w : World T)
    (ctx : Context) (req : Value) (info : UnaryServerInfo)
    (handler : UnaryHandler) :
  Enabled (tracer w) = false ->
  fst (UnaryServerInterceptor opts w0) ctx req info handler w
  = handler ctx req w.
Proof.
  intros Hoff. unfold UnaryServerInterceptor, bind, ret, gets, with_tracer.
  cbn [fst snd]. rewrite Hoff. reflexivity.
Qed.

Lemma server_enabled (opts : list InterceptorOption) (w0 w : World T)
    (ctx : Context) (req : Value) (info : UnaryServerInfo)
    (handler : UnaryHandler) :
  Enabled (tracer w) = true ->
  fst (UnaryServerInterceptor opts w0) ctx req info handler w
  = let '(p, w1) := serverSpan ctx (FullMethod info)
                      (serviceName (configure opts "grpc.server")) w in
    let '((resp, err), w2) := handler (ContextWithSpan ctx p) req w1 in
    ((resp, err), snd (FinishWithErr p err w2)).
Proof.
  intros Hon. unfold UnaryServerInterceptor, bind, ret, gets, with_tracer.
  cbn [fst snd]. rewrite Hon. cbn [negb].
  destruct (serverSpan _ _ _ w) as [p w1].
  destruct (handler _ req w1) as [[resp err] w2].
  destruct (FinishWithErr p err w2) as [[] w3]. reflexivity.
Qed.

Lemma client_run (opts : list InterceptorOption) (w0 w : World T)
    (ctx : Context) (method : string) (req reply : Value) (cc : ClientConn)
    (invoker : UnaryInvoker) (callopts : list CallOption) :
  fst (UnaryClientInterceptor opts w0) ctx method req reply cc invoker callopts w
  = let '(p, ctx', w1) := client_call ctx method w in
    let '(err, w2) := invoker ctx' method req reply cc callopts w1 in
    (err, snd (FinishWithErr p err
                 (snd (SetMeta p "grpc.code" (Code_String (Code_of err)) w2)))).
Proof.
  unfold UnaryClientInterceptor, client_call, bind, ret, gets, with_tracer.
  cbn [fst snd].
  destruct (StartSpanWithContext ctx "grpc.client" w) as [[p ctx1] w1].
  destruct (SetMeta p "grpc.method" method w1) as [[] w2]. cbn [fst snd].
  destruct (invoker _ method req reply cc callopts w2) as [err w3].
  destruct (SetMeta p "grpc.code" _ w3) as [[] w4]. cbn [fst snd].
  destruct (FinishWithErr p err w4) as [[] w5]. reflexivity.
Qed.

Lemma client_call_run (ctx : Context) (method : string) (w : World T) :
  client_call ctx method w
  = let '(s0, t1) :=
      NewChildSpan "grpc.client" (activeSpan ctx ≫= fun q => spans w !! q)
        (tracer w) in
    let s1 := if finished s0 then s0
              else set_Meta (<["grpc.method" := method]> (Meta s0)) s0 in
    (length (spans w),
     setIDs (Some s1) (ContextWithSpan ctx (length (spans w))),
     mkWorld (spans w ++ [s1]) t1).
Proof.
  unfold client_call, StartSpanWithContext, SetMeta, update, modify, bind, ret,
    gets, with_tracer, alloc.
  cbn [spans tracer].
  destruct (NewChildSpan "grpc.client" _ (tracer w)) as [s0 t1].
  cbn [snd spans tracer]. rewrite alter_new, lookup_new. reflexivity.
Qed.

Lemma server_invokes_serverSpan (opts : list InterceptorOption)
    (w0 w : World T) (ctx : Context) (info : UnaryServerInfo) :
  Enabled (tracer w) = true ->
  let '(p, w1) := serverSpan ctx (FullMethod info)
                    (serviceName (configure opts "grpc.server")) w in
  server_invokes (Value := Value) (fst (UnaryServerInterceptor opts w0))
    ctx info w p (ContextWithSpan ctx p) w1.
Proof.
  intros Hon.
  destruct (serverSpan ctx (FullMethod info)
              (serviceName (configure opts "grpc.server")) w) as [p w1] eqn:Hrun.
  intros req handler.
  rewrite (server_enabled opts w0 w ctx req info handler Hon), Hrun.
  reflexivity.
Qed.

Lemma client_invokes_client_call (opts : list InterceptorOption)
    (w0 w : World T) (ctx : Context) (method : string) :
  let '(p, ctx', w1) := client_call ctx method w in
  client_invokes (Value := Value) (ClientConn := ClientConn)
    (CallOption := CallOption) (fst (UnaryClientInterceptor opts w0))
    ctx method w p ctx' w1.
Proof.
  destruct (client_call ctx method w) as [[p ctx'] w1] eqn:Hrun.
  intros req reply cc invoker callopts.
  rewrite client_run, Hrun. reflexivity.
Qed.

End CallFacts.

End CallFacts.

(** * The claims *)

Import Int Strconv StrconvFacts Grpc Tracer Contrib Codec Calls Demo.
Import Decode Encode CallFacts.

(** ** The codec *)

(** C1: the round trip through [setIDs] and [getIDs] is claimed for every
    pair of non-zero 64-bit identifiers; at the trace identifier [2^63],
    which [fmt.Sprint] prints in full, [strconv.Atoi] reports a range
    error and the decoded trace identifier is 0 (the round trip holds
    below [2^63], see [Encode.roundtrip_below_2_63]). *)
Theorem setIDs_getIDs_at_2_63 :
  let sp := span_with (2 ^ 63) 1 in
  is_uint64 (TraceID sp) /\ TraceID sp ≠ 0 /\ ParentID sp ≠ 0 /\
  getIDs (transport (setIDs (Some sp) emptyCtx)) = (0, 1) /\
  getIDs (transport (setIDs (Some sp) emptyCtx)) ≠ (TraceID sp, ParentID sp).
Proof.
  cbv zeta. repeat split.
  - vm_compute. discriminate.
  - vm_compute. discriminate.
  - vm_compute. discriminate.
  - vm_compute. discriminate.
  - vm_compute. discriminate.
Qed.

(** C2, as stated, fails: a carrier with a usable trace identifier only
    decodes to a pair with exactly one non-zero component, not to (0, 0). *)
Lemma getIDs_partial_pair_not_absent :
  partial_pair {[traceIDKey := ["5"]]} /\
  getIDs onlyTraceCtx = (5, 0) /\
  getIDs onlyTraceCtx ≠ (0, 0).
Proof.
  split; [| split].
  - left. split; vm_compute; [discriminate | intros Hn; apply Hn; reflexivity].
  - vm_compute. reflexivity.
  - vm_compute. discriminate.
Qed.

Section ServerSpanClaims.
Context {T : Type} `{TracerOps T}.

(** C2, amended: for a carrier in which exactly one of the two trace keys
    carries a usable identifier, [getIDs] returns the partial pair as it
    is, with exactly one non-zero component; it is [serverSpan] that
    treats the pair as absent and leaves the new span's TraceID and
    ParentID as the tracer assigned them. *)
Theorem partial_pair_dropped_by_serverSpan
    (ctx : Context) (md : MD) (method service : string) (w : World T) :
  FromIncomingContext ctx = Some md ->
  partial_pair md ->
  getIDs ctx = (getID md traceIDKey, getID md parentIDKey) /\
  ((fst (getIDs ctx) ≠ 0 /\ snd (getIDs ctx) = 0) \/
   (fst (getIDs ctx) = 0 /\ snd (getIDs ctx) ≠ 0)) /\
  let '(s0, _) := NewRootSpan "grpc.server" service method (tracer w) in
  let '(p, w') := serverSpan ctx method service w in
  exists s, spans w' !! p = Some s /\
            TraceID s = TraceID s0 /\ ParentID s = ParentID s0.
Proof.
  intros Hmd Hpart.
  pose proof (getIDs_incoming ctx md Hmd) as Hids.
  split; [exact Hids |].
  assert (Hone : (fst (getIDs ctx) ≠ 0 /\ snd (getIDs ctx) = 0) \/
                 (fst (getIDs ctx) = 0 /\ snd (getIDs ctx) ≠ 0)).
  { rewrite Hids. cbn [fst snd]. unfold partial_pair, usable in Hpart.
    destruct Hpart as [[Ht Hp] | [Ht Hp]].
    - left. split; [exact Ht |].
      destruct (Z.eq_dec (getID md parentIDKey) 0); [assumption | contradiction].
    - right. split; [| exact Hp].
      destruct (Z.eq_dec (getID md traceIDKey) 0); [assumption | contradiction]. }
  split; [exact Hone |].
  rewrite serverSpan_run.
  destruct (NewRootSpan "grpc.server" service method (tracer w)) as [s0 t1].
  exists (server_span_of ctx method s0). cbn [spans].
  split; [apply lookup_new |].
  unfold server_span_of.
  destruct (getIDs ctx) as [traceID parentID]. cbn [fst snd] in Hone.
  assert (Hcond : negb (traceID =? 0) && negb (parentID =? 0) = false).
  { destruct Hone as [[_ ->] | [-> _]]; [| reflexivity].
    rewrite andb_false_r. reflexivity. }
  rewrite Hcond. destruct (finished s0); split; reflexivity.
Qed.

(** C6: [serverSpan] allocates a new span and, exactly when both decoded
    identifiers are non-zero, overwrites its TraceID and ParentID with
    them; otherwise both keep the values the tracer assigned. *)
Theorem serverSpan_continues_or_keeps_ids
    (ctx : Context) (method service : string) (w : World T) :
  let '(s0, _) := NewRootSpan "grpc.server" service method (tracer w) in
  let '(p, w') := serverSpan ctx method service w in
  let '(traceID, parentID) := getIDs ctx in
  spans w !! p = None /\
  (forall q s, spans w !! q = Some s -> spans w' !! q = Some s) /\
  exists s, spans w' !! p = Some s /\ Type_ s = "go" /\
    if decide (traceID ≠ 0 /\ parentID ≠ 0)
    then TraceID s = traceID /\ ParentID s = parentID
    else TraceID s = TraceID s0 /\ ParentID s = ParentID s0.
Proof.
  rewrite serverSpan_run.
  destruct (NewRootSpan "grpc.server" service method (tracer w)) as [s0 t1].
  destruct (getIDs ctx) as [traceID parentID] eqn:Hids. cbn [spans].
  split; [apply lookup_ge_None; lia |].
  split.
  { intros q s Hq. rewrite lookup_app_l; [exact Hq |].
    apply lookup_lt_Some in Hq. exact Hq. }
  exists (server_span_of ctx method s0).
  split; [apply lookup_new |].
  unfold server_span_of. rewrite Hids.
  destruct (Z.eqb_spec traceID 0) as [Ht | Ht];
    destruct (Z.eqb_spec parentID 0) as [Hp | Hp]; cbn [negb andb];
    (split; [reflexivity |]);
    case_decide as Hd; try (exfalso; tauto);
    destruct (finished s0); split; reflexivity.
Qed.

End ServerSpanClaims.

Lemma serverSpan_continues_or_keeps_ids_witness :
  exists s,
    spans (snd (serverSpan bothIDsCtx "/pkg.Service/Method" "grpc.server"
                  (world true))) !! 0%nat = Some s /\
    TraceID s = 12 /\ ParentID s = 34.
Proof.
  pose proof (serverSpan_continues_or_keeps_ids bothIDsCtx
                "/pkg.Service/Method" "grpc.server" (world true)) as Hspan.
  cbn [NewRootSpan demo_ops demo_root] in Hspan.
  destruct (serverSpan bothIDsCtx "/pkg.Service/Method" "grpc.server"
              (world true)) as [p w'] eqn:Hrun.
  assert (Hp : p = 0%nat) by (vm_compute in Hrun; congruence).
  subst p.
  change (getIDs bothIDsCtx) with (12, 34) in Hspan.
  destruct Hspan as (_ & _ & s & Hs & _ & Hids).
  exists s. split; [exact Hs |].
  rewrite decide_True in Hids by (split; discriminate). exact Hids.
Defined.

Lemma partial_pair_dropped_by_serverSpan_witness :
  FromIncomingContext onlyTraceCtx = Some {[traceIDKey := ["5"]]} /\
  partial_pair {[traceIDKey := ["5"]]} /\
  getIDs onlyTraceCtx
  = (getID {[traceIDKey := ["5"]]} traceIDKey,
     getID {[traceIDKey := ["5"]]} parentIDKey).
Proof.
  assert (Hpart : partial_pair {[traceIDKey := ["5"]]}).
  { left. split; vm_compute; [discriminate | intros Hn; apply Hn; reflexivity]. }
  split; [reflexivity |].
  split; [exact Hpart |].
  apply (partial_pair_dropped_by_serverSpan onlyTraceCtx {[traceIDKey := ["5"]]}
           "/pkg.Service/Method" "grpc.server" (world true)).
  - reflexivity.
  - exact Hpart.
Defined.

(** For a carrier in which only one of the two trace keys is set, to
    values of which the first that [Atoi] accepts is a non-zero [v],
    [getIDs] returns the identifier read under that key (the [uint64] of
    [v], which is [v] itself when [v] is positive and is never zero) and
    0 for the missing one: no validation of partial pairs takes place. *)
Theorem getIDs_honors_single_key
    (ctx : Context) (md : MD) (vs : list string) (v : Z) :
  FromIncomingContext ctx = Some md ->
  first_parsed vs = Some v -> v ≠ 0 ->
  (md !! traceIDKey = Some vs -> md !! parentIDKey = None ->
   getIDs ctx = (uint64 v, 0)) /\
  (md !! parentIDKey = Some vs -> md !! traceIDKey = None ->
   getIDs ctx = (0, uint64 v)) /\
  uint64 v ≠ 0 /\ (0 < v -> uint64 v = v).
Proof.
  intros Hmd Hvs Hv.
  destruct (uint64_of_int v (first_parsed_range vs v Hvs)) as [Hpos Hnz].
  rewrite (getIDs_incoming ctx md Hmd).
  repeat split.
  - intros Hset Hmiss.
    rewrite (getID_present md _ vs Hset), (getID_absent md _ Hmiss), Hvs.
    reflexivity.
  - intros Hset Hmiss.
    rewrite (getID_present md _ vs Hset), (getID_absent md _ Hmiss), Hvs.
    reflexivity.
  - auto.
  - intros Hgt. apply Hpos. lia.
Qed.

Lemma getIDs_honors_single_key_witness :
  first_parsed ["junk"; "7"] = Some 7 /\
  getIDs onlyParentCtx = (0, uint64 7) /\
  uint64 7 = 7.
Proof.
  pose proof (getIDs_honors_single_key onlyParentCtx
                {[parentIDKey := ["junk"; "7"]]} ["junk"; "7"] 7
                eq_refl eq_refl ltac:(discriminate)) as (_ & Hparent & _ & Hval).
  split; [reflexivity |].
  split; [apply Hparent; reflexivity | apply Hval; reflexivity].
Defined.

(** C3: [getIDs] is claimed to honor the value of the only trace key
    that is set. A carrier whose only trace key holds a 64-bit
    identifier from [2^63] on, in decimal as [setIDs] writes it and as
    [ParseUint] reads it, decodes to (0, 0): [getID] parses with the
    signed [strconv.Atoi], which reports a range error, and the value is
    dropped instead of honored. *)
Theorem getIDs_single_key_at_2_63 :
  Sprint 9223372036854775808 = "9223372036854775808" /\
  ParseUint "9223372036854775808" = (9223372036854775808, None) /\
  getIDs (mkContext (Some {[traceIDKey := ["9223372036854775808"]]}) None None)
  = (0, 0) /\
  getIDs (mkContext (Some {[traceIDKey := ["9223372036854775808"]]}) None None)
  ≠ (9223372036854775808, 0) /\
  getIDs (mkContext (Some {[parentIDKey := ["18446744073709551615"]]}) None None)
  = (0, 0).
Proof.
  split; [vm_compute; reflexivity |].
  split; [vm_compute; reflexivity |].
  split; [vm_compute; reflexivity |].
  split; [vm_compute; discriminate |].
  vm_compute; reflexivity.
Qed.

(** C5: [getID] is claimed to return the first value that parses as a
    non-negative integer and to skip the others. [strconv.Atoi] parses a
    signed [int]: the value "-5" is not skipped but returned wrapped to
    [2^64 - 5], and the 64-bit value [2^63] is skipped as if malformed. *)
Theorem getID_signed_parse :
  getID {[traceIDKey := ["-5"; "7"]]} traceIDKey = 18446744073709551611 /\
  getID {[parentIDKey := ["9223372036854775808"; "7"]]} parentIDKey = 7 /\
  getIDs (mkContext (Some {[traceIDKey := ["-5"; "7"]]}) None None)
  = (18446744073709551611, 0).
Proof. repeat split; vm_compute; reflexivity. Qed.

(** C4: [setIDs] is claimed to merge the trace entries into the carrier
    already present on the outgoing path. The carrier it joins them with
    is the incoming one: a key of the outgoing carrier,
    "x-request-id": "abc", is gone from the carrier [setIDs] installs and
    from the one the client interceptor hands to the invoker. *)
Theorem setIDs_loses_outgoing_key :
  (outgoingMD requestIdCtx ≫= fun md => md !! "x-request-id") = Some ["abc"] /\
  (outgoingMD (setIDs (Some (span_with 1 2)) requestIdCtx)
     ≫= fun md => md !! "x-request-id") = None /\
  (outgoingMD (snd (fst (client_call requestIdCtx "/pkg.Service/Method" (world true))))
     ≫= fun md => md !! "x-request-id") = None /\
  (outgoingMD (snd (fst (client_call requestIdCtx "/pkg.Service/Method" (world true))))
     ≫= fun md => md !! traceIDKey) = Some ["41"].
Proof. repeat split; vm_compute; reflexivity. Qed.

(** C9: for a span with a non-zero TraceID, [setIDs] installs as outgoing
    metadata the join of the incoming metadata of the context with the
    two trace entries: every incoming entry is forwarded, its values
    first and unchanged, the metadata attached to the outgoing context
    before has no influence on the result, and the incoming metadata and
    the active span of the context stay as they were. *)
Theorem setIDs_forwards_incoming (sp : Span) (ctx : Context) :
  TraceID sp ≠ 0 ->
  (exists md,
     outgoingMD (setIDs (Some sp) ctx) = Some md /\
     md = match FromIncomingContext ctx with
          | Some existing => Join [existing; trace_entries sp]
          | None => trace_entries sp
          end /\
     (forall existing k vs,
        FromIncomingContext ctx = Some existing -> existing !! k = Some vs ->
        md !! k = Some (vs ++ injected sp k)) /\
     md !! traceIDKey
     = Some (default [] (FromIncomingContext ctx ≫= fun e => e !! traceIDKey)
             ++ [Sprint (TraceID sp)]) /\
     md !! parentIDKey
     = Some (default [] (FromIncomingContext ctx ≫= fun e => e !! parentIDKey)
             ++ [Sprint (ParentID sp)])) /\
  (forall previous,
     setIDs (Some sp) (mkContext (incomingMD ctx) previous (activeSpan ctx))
     = setIDs (Some sp) ctx) /\
  incomingMD (setIDs (Some sp) ctx) = incomingMD ctx /\
  activeSpan (setIDs (Some sp) ctx) = activeSpan ctx.
Proof.
  intros Ht. split; [| split; [| split]].
  - rewrite setIDs_outgoing by assumption.
    eexists; split; [reflexivity |]. split; [reflexivity |].
    split; [| split].
    + intros existing k vs Hin Hk. rewrite Hin.
      rewrite Join_two_lookup, Hk, trace_entries_lookup. unfold injected.
      repeat case_decide; cbn; rewrite ?app_nil_r; reflexivity.
    + destruct (FromIncomingContext ctx) as [existing |];
        cbn [mbind option_bind].
      * rewrite Join_two_lookup, trace_entries_lookup.
        rewrite decide_True by reflexivity.
        destruct (existing !! traceIDKey); reflexivity.
      * rewrite trace_entries_lookup, decide_True by reflexivity. reflexivity.
    + destruct (FromIncomingContext ctx) as [existing |];
        cbn [mbind option_bind].
      * rewrite Join_two_lookup, trace_entries_lookup.
        rewrite decide_False by (symmetry; apply keys_differ).
        rewrite decide_True by reflexivity.
        destruct (existing !! parentIDKey); reflexivity.
      * rewrite trace_entries_lookup.
        rewrite decide_False by (symmetry; apply keys_differ).
        rewrite decide_True by reflexivity. reflexivity.
  - intros previous. rewrite !setIDs_outgoing by assumption. reflexivity.
  - rewrite setIDs_outgoing by assumption. reflexivity.
  - rewrite setIDs_outgoing by assumption. reflexivity.
Qed.

Lemma setIDs_forwards_incoming_witness :
  TraceID (span_with 12 34) ≠ 0 /\
  (forall previous,
     setIDs (Some (span_with 12 34))
       (mkContext (incomingMD serverCallCtx) previous (activeSpan serverCallCtx))
     = setIDs (Some (span_with 12 34)) serverCallCtx).
Proof.
  assert (Hne : TraceID (span_with 12 34) ≠ 0) by (vm_compute; discriminate).
  split; [exact Hne |].
  exact (proj1 (proj2 (setIDs_forwards_incoming (span_with 12 34) serverCallCtx Hne))).
Defined.

(** The carrier a nested client call sends for [serverCallCtx]. *)
Example setIDs_serverCallCtx :
  map_to_list <$> outgoingMD (setIDs (Some (span_with 12 34)) serverCallCtx)
  = Some [("authorization", ["secret"]);
          ("x-datadog-trace-id", ["99"; "12"]);
          ("x-datadog-parent-id", ["34"])].
Proof. vm_compute. reflexivity. Qed.

(** ** The interceptors *)

Section InterceptorClaims.
Context {T : Type} `{TracerOps T} `{Defaults}.
Context {Value ClientConn CallOption : Type}.

(** C7: when the tracer reports tracing disabled, the server interceptor
    is the wrapped handler, run on the unmodified context and request in
    the unmodified world: its result, its error and its effects are the
    handler's, so no span is created and no metadata is read. *)
Theorem server_interceptor_disabled
    (opts : list InterceptorOption) (w0 w : World T) (ctx : Context)
    (req : Value) (info : UnaryServerInfo)
    (handler : @UnaryHandler T Value) :
  Enabled (tracer w) = false ->
  fst (UnaryServerInterceptor opts w0) ctx req info handler w
  = handler ctx req w.
Proof. apply server_disabled. Qed.

(** C8: both interceptors return what the wrapped call returned (the
    response and the error of the handler, the error of the invoker)
    unchanged, and finish the span with that error: a span the wrapped
    call left unfinished ends finished with the error recorded, on the
    client after the tag "grpc.code" was set from the error's code. *)
Theorem interceptors_pass_errors_through
    (opts : list InterceptorOption) (w0 w : World T) (ctx : Context) :
  (forall (req : Value) (info : UnaryServerInfo)
          (handler : @UnaryHandler T Value),
     let '(ctx', w1) := server_call opts ctx info w in
     let '((resp, err), w2) := handler ctx' req w1 in
     let '(out, w3) := fst (UnaryServerInterceptor opts w0) ctx req info handler w in
     out = (resp, err) /\
     (Enabled (tracer w) = true ->
      exists p, activeSpan ctx' = Some p /\
        w3 = snd (FinishWithErr p err w2) /\
        forall s, spans w2 !! p = Some s -> finished s = false ->
          spans w3 !! p = Some (finished_with err s))) /\
  (forall (method : string) (req reply : Value) (cc : ClientConn)
          (invoker : @UnaryInvoker T Value ClientConn CallOption)
          (callopts : list CallOption),
     let '(p, ctx', w1) := client_call ctx method w in
     let '(err, w2) := invoker ctx' method req reply cc callopts w1 in
     let '(out, w3) :=
       fst (UnaryClientInterceptor opts w0) ctx method req reply cc invoker callopts w in
     out = err /\
     w3 = snd (FinishWithErr p err
                 (snd (SetMeta p "grpc.code" (Code_String (Code_of err)) w2))) /\
     forall s, spans w2 !! p = Some s -> finished s = false ->
       spans w3 !! p
       = Some (finished_with err
                 (set_Meta (<["grpc.code" := Code_String (Code_of err)]> (Meta s)) s))).
Proof.
  split.
  - intros req info handler. unfold server_call.
    destruct (Enabled (tracer w)) eqn:Hon.
    + rewrite (server_enabled opts w0 w ctx req info handler Hon).
      destruct (serverSpan _ _ _ w) as [p w1].
      destruct (handler _ req w1) as [[resp err] w2].
      split; [reflexivity |]. intros _. exists p.
      split; [reflexivity |]. split; [reflexivity |].
      intros s Hs Hf. apply FinishWithErr_lookup; assumption.
    + rewrite (server_disabled opts w0 w ctx req info handler Hon).
      destruct (handler ctx req w) as [[resp err] w2].
      split; [reflexivity | discriminate].
  - intros method req reply cc invoker callopts.
    rewrite client_run.
    destruct (client_call ctx method w) as [[p ctx'] w1].
    destruct (invoker ctx' method req reply cc callopts w1) as [err w2].
    split; [reflexivity |]. split; [reflexivity |].
    intros s Hs Hf.
    apply FinishWithErr_lookup; [| exact Hf].
    apply SetMeta_lookup; assumption.
Qed.

(** C10: [serverSpan] records the method under the tag key "gprc.method"
    and leaves the key "grpc.method" as the tracer's new span had it, so
    the span the server interceptor hands to the handler of a traced
    call carries the method under "gprc.method" only; the span the
    client interceptor hands to the invoker carries the method under
    "grpc.method". *)
Theorem method_tag_keys
    (opts : list InterceptorOption) (w0 : World T)
    (ctx : Context) (method service : string) (w : World T) :
  (forall name svc res t, finished (fst (NewRootSpan name svc res t)) = false) ->
  (forall name parent t, finished (fst (NewChildSpan name parent t)) = false) ->
  (let '(s0, _) := NewRootSpan "grpc.server" service method (tracer w) in
   let '(p, w') := serverSpan ctx method service w in
   exists s, spans w' !! p = Some s /\
     Meta s !! "gprc.method" = Some method /\
     Meta s !! "grpc.method" = Meta s0 !! "grpc.method") /\
  (Enabled (tracer w) = true ->
   exists p ctx' w1 s,
     server_invokes (Value := Value) (fst (UnaryServerInterceptor opts w0))
       ctx (mkInfo method) w p ctx' w1 /\
     spans w !! p = None /\ activeSpan ctx' = Some p /\
     spans w1 !! p = Some s /\
     Meta s !! "gprc.method" = Some method /\
     Meta s !! "grpc.method"
     = Meta (fst (NewRootSpan "grpc.server"
                    (serviceName (configure opts "grpc.server")) method
                    (tracer w))) !! "grpc.method") /\
  (exists p ctx' w1 s,
     client_invokes (Value := Value) (ClientConn := ClientConn)
       (CallOption := CallOption) (fst (UnaryClientInterceptor opts w0))
       ctx method w p ctx' w1 /\
     spans w !! p = None /\ activeSpan ctx' = Some p /\
     spans w1 !! p = Some s /\
     Meta s !! "grpc.method" = Some method).
Proof.
  intros Hroot Hchild.
  assert (Hserver : forall service,
    let '(s0, _) := NewRootSpan "grpc.server" service method (tracer w) in
    let '(p, w') := serverSpan ctx method service w in
    p = length (spans w) /\
    exists s, spans w' !! p = Some s /\
      Meta s !! "gprc.method" = Some method /\
      Meta s !! "grpc.method" = Meta s0 !! "grpc.method").
  { intros svc. rewrite serverSpan_run.
    pose proof (Hroot "grpc.server" svc method (tracer w)) as Hf.
    destruct (NewRootSpan "grpc.server" svc method (tracer w)) as [s0 t1].
    cbn [fst] in Hf. split; [reflexivity |].
    exists (server_span_of ctx method s0). cbn [spans].
    split; [apply lookup_new |].
    unfold server_span_of. rewrite Hf.
    destruct (getIDs ctx) as [traceID parentID].
    destruct (negb (traceID =? 0) && negb (parentID =? 0));
      cbn [Meta set_ParentID set_TraceID set_Type set_Meta];
      (split; [apply lookup_insert_eq | apply lookup_insert_ne; discriminate]). }
  split; [| split].
  - specialize (Hserver service).
    destruct (NewRootSpan "grpc.server" service method (tracer w)) as [s0 t1].
    destruct (serverSpan ctx method service w) as [p w'].
    exact (proj2 Hserver).
  - intros Hon.
    pose proof (server_invokes_serverSpan (Value := Value) opts w0 w ctx
                  (mkInfo method) Hon) as Hinv.
    specialize (Hserver (serviceName (configure opts "grpc.server"))).
    cbn [FullMethod] in Hinv.
    destruct (NewRootSpan "grpc.server" _ method (tracer w)) as [s0 t1].
    destruct (serverSpan ctx method _ w) as [p w'].
    destruct Hserver as (Hp & s & Hs & Hgprc & Hgrpc).
    exists p, (ContextWithSpan ctx p), w', s.
    split; [exact Hinv |].
    split; [subst p; apply lookup_ge_None; lia |].
    split; [reflexivity |]. split; [exact Hs |].
    split; [exact Hgprc | exact Hgrpc].
  - pose proof (client_invokes_client_call (Value := Value)
                  (ClientConn := ClientConn) (CallOption := CallOption)
                  opts w0 w ctx method) as Hinv.
    rewrite client_call_run in Hinv.
    pose proof (Hchild "grpc.client"
                  (activeSpan ctx ≫= fun q => spans w !! q) (tracer w)) as Hf.
    destruct (NewChildSpan "grpc.client" _ (tracer w)) as [s0 t1].
    cbn [fst] in Hf. rewrite Hf in Hinv. cbv zeta in Hinv.
    eexists _, _, _, _. split; [exact Hinv |].
    split; [apply lookup_ge_None; lia |].
    split.
    { unfold setIDs. destruct (TraceID _ =? 0); reflexivity. }
    cbn [spans]. split; [apply lookup_new |].
    apply lookup_insert_eq.
Qed.

End InterceptorClaims.

Lemma server_interceptor_disabled_witness :
  Enabled (tracer (world false)) = false /\
  fst (UnaryServerInterceptor [] (world false)) emptyCtx "request" info
      failing_handler (world false)
  = failing_handler emptyCtx "request" (world false).
Proof.
  split; [reflexivity |].
  apply (server_interceptor_disabled [] (world false) (world false) emptyCtx
           "request" info failing_handler).
  reflexivity.
Defined.

Lemma interceptors_pass_errors_through_witness :
  fst (fst (UnaryServerInterceptor [] (world true)) emptyCtx "request" info
           failing_handler (world true))
  = ("request", Some (rpcError NotFound "no such thing")) /\
  fst (fst (UnaryClientInterceptor [] (world true)) emptyCtx "/pkg.Service/Method"
           "request" "reply" tt failing_invoker [] (world true))
  = Some (rpcError Unavailable "down").
Proof.
  pose proof (interceptors_pass_errors_through (Value := string)
                (ClientConn := unit) (CallOption := unit)
                [] (world true) (world true) emptyCtx) as [Hserver Hclient].
  split.
  - specialize (Hserver "request" info failing_handler).
    destruct (server_call [] emptyCtx info (world true)) as [ctx' w1].
    unfold failing_handler at 1 in Hserver. unfold ret in Hserver.
    destruct (fst (UnaryServerInterceptor [] (world true)) emptyCtx "request"
                info failing_handler (world true)) as [out w3].
    exact (proj1 Hserver).
  - specialize (Hclient "/pkg.Service/Method" "request" "reply" tt
                  failing_invoker []).
    destruct (client_call emptyCtx "/pkg.Service/Method" (world true))
      as [[p ctx'] w1].
    unfold failing_invoker at 1 in Hclient. unfold ret in Hclient.
    destruct (fst (UnaryClientInterceptor [] (world true)) emptyCtx
                "/pkg.Service/Method" "request" "reply" tt failing_invoker []
                (world true)) as [out w3].
    exact (proj1 Hclient).
Defined.

Lemma method_tag_keys_witness :
  (exists s, spans (snd (serverSpan emptyCtx "/pkg.Service/Method" "grpc.server"
                           (world true))) !! 0%nat = Some s /\
     Meta s !! "gprc.method" = Some "/pkg.Service/Method" /\
     Meta s !! "grpc.method" = None) /\
  fst (fst (UnaryServerInterceptor [] (world true)) emptyCtx "request"
         (mkInfo "/pkg.Service/Method") probing_handler (world true))
  = ("request", Some (otherError "/pkg.Service/Method")) /\
  fst (fst (UnaryClientInterceptor [] (world true)) emptyCtx
         "/pkg.Service/Method" "request" "reply" tt tag_probing_invoker []
         (world true))
  = Some (otherError "/pkg.Service/Method").
Proof.
  pose proof (method_tag_keys (Value := string) (ClientConn := unit)
                (CallOption := unit) [] (world true)
                emptyCtx "/pkg.Service/Method" "grpc.server"
                (world true) (fun _ _ _ _ => eq_refl)
                (fun _ parent _ =>
                   match parent with Some _ => eq_refl | None => eq_refl end))
    as (Hspan & Hserver & Hclient).
  split; [exact Hspan |]. split.
  - destruct (Hserver eq_refl) as (p & ctx' & w1 & s & Hinv & _ & Hact & Hs & Htag & _).
    rewrite (Hinv "request" probing_handler).
    unfold probing_handler, bind, gets, ret. cbn [fst].
    rewrite Hact. cbn [mbind option_bind]. rewrite Hs. cbn [mbind option_bind].
    rewrite Htag. reflexivity.
  - destruct Hclient as (p & ctx' & w1 & s & Hinv & _ & Hact & Hs & Htag).
    rewrite (Hinv "request" "reply" tt tag_probing_invoker []).
    unfold tag_probing_invoker, bind, gets, ret. cbn [fst].
    rewrite Hact. cbn [mbind option_bind]. rewrite Hs. cbn [mbind option_bind].
    rewrite Htag. reflexivity.
Defined.

(** The span the server interceptor creates is the one the handler
    reaches through its context: the tag the handler sets is on the span
    the interceptor finishes. *)
Example server_span_is_shared :
  let w := snd (fst (UnaryServerInterceptor [] (world true)) emptyCtx
                  "request" info tagging_handler (world true)) in
  (fun s => (Meta s !! "seen", Meta s !! "gprc.method", finished s))
    <$> spans w !! 0%nat
  = Some (Some "request", Some "/pkg.Service/Method", true).
Proof. vm_compute. reflexivity. Qed.

(** * Further properties of the codec and the interceptors *)

(** ** Decoding *)

Lemma getID_no_parse (md : MD) (k : string) :
  first_parsed (default [] (md !! k)) = None -> getID md k = 0.
Proof.
  intros Hk. unfold getID. rewrite getID_values_first_parsed, Hk. reflexivity.
Qed.

Lemma getID_parse (md : MD) (k : string) (v : Z) :
  first_parsed (default [] (md !! k)) = Some v -> getID md k = uint64 v.
Proof.
  intros Hk. unfold getID. rewrite getID_values_first_parsed, Hk. reflexivity.
Qed.

(** X1: a context without incoming metadata, without the two trace keys,
    or with only malformed values under them, decodes to (0, 0). *)
Theorem getIDs_nothing_inbound (ctx : Context) :
  no_inbound_ids ctx -> getIDs ctx = (0, 0).
Proof.
  intros Hin. destruct (FromIncomingContext ctx) as [md |] eqn:Hmd.
  - rewrite (getIDs_incoming ctx md Hmd).
    pose proof (Hin traceIDKey (or_introl eq_refl)) as Ht.
    pose proof (Hin parentIDKey (or_intror eq_refl)) as Hp.
    rewrite Hmd in Ht, Hp. cbn [mbind option_bind] in Ht, Hp.
    rewrite (getID_no_parse _ _ Ht), (getID_no_parse _ _ Hp). reflexivity.
  - unfold getIDs. rewrite Hmd. reflexivity.
Qed.

Lemma getIDs_nothing_inbound_witness :
  no_inbound_ids
    (mkContext (Some {[traceIDKey := ["12a"; ""]; "user-agent" := ["grpc-go"]]})
               None None) /\
  getIDs (mkContext (Some {[traceIDKey := ["12a"; ""]; "user-agent" := ["grpc-go"]]})
                    None None) = (0, 0).
Proof.
  assert (Hin : no_inbound_ids
            (mkContext (Some {[traceIDKey := ["12a"; ""]; "user-agent" := ["grpc-go"]]})
                       None None))
    by (intros k [-> | ->]; vm_compute; reflexivity).
  split; [exact Hin |].
  apply (getIDs_nothing_inbound _ Hin).
Defined.

(** X2: decoding looks at the values under the two trace keys only: two
    contexts whose incoming metadata agree on these keys decode alike,
    whatever their other keys, outgoing metadata and active span. *)
Theorem getIDs_reads_two_keys (ctx ctx' : Context) (md md' : MD) :
  FromIncomingContext ctx = Some md ->
  FromIncomingContext ctx' = Some md' ->
  md !! traceIDKey = md' !! traceIDKey ->
  md !! parentIDKey = md' !! parentIDKey ->
  getIDs ctx = getIDs ctx'.
Proof.
  intros Hmd Hmd' Ht Hp.
  rewrite (getIDs_incoming ctx md Hmd), (getIDs_incoming ctx' md' Hmd').
  unfold getID. rewrite Ht, Hp. reflexivity.
Qed.

Lemma getIDs_reads_two_keys_witness :
  getIDs bothIDsCtx
  = getIDs (mkContext (Some (<["authorization" := ["secret"]]>
                               {[traceIDKey := ["12"]; parentIDKey := ["34"]]}))
                      (Some {["x-request-id" := ["abc"]]}) (Some 3%nat)).
Proof.
  apply (getIDs_reads_two_keys bothIDsCtx _
           {[traceIDKey := ["12"]; parentIDKey := ["34"]]}
           (<["authorization" := ["secret"]]>
              {[traceIDKey := ["12"]; parentIDKey := ["34"]]}));
    reflexivity.
Defined.

(** X3: the identifier read under a key is the first value [Atoi]
    accepts, as a [uint64]: the number itself when it is not negative,
    the number plus [2^64] when it is negative; it is an [int] in both
    cases, so what is decoded is never in [2^63, 2^64 - 2^63). *)
Theorem getID_value (md : MD) (k : string) (vs : list string) (v : Z) :
  md !! k = Some vs ->
  first_parsed vs = Some v ->
  - 2 ^ 63 <= v < 2 ^ 63 /\
  getID md k = (if 0 <=? v then v else v + 2 ^ 64) /\
  0 <= getID md k < 2 ^ 64.
Proof.
  intros Hk Hvs.
  pose proof (first_parsed_range vs v Hvs) as Hv. unfold is_int64 in Hv.
  split; [exact Hv |]. split; [| apply getID_range].
  rewrite (getID_present md k vs Hk), Hvs. cbn [from_option].
  unfold uint64. change (2 ^ 63) with 9223372036854775808 in Hv.
  change (2 ^ 64) with 18446744073709551616.
  destruct (Z.leb_spec 0 v).
  - apply Z.mod_small. lia.
  - symmetry. apply Z.mod_unique with (q := -1); lia.
Qed.

Lemma getID_value_witness :
  first_parsed ["x"; "-1"; "3"] = Some (-1) /\
  getID {[parentIDKey := ["x"; "-1"; "3"]]} parentIDKey
  = (if 0 <=? -1 then -1 else -1 + 2 ^ 64).
Proof.
  split; [reflexivity |].
  apply (getID_value {[parentIDKey := ["x"; "-1"; "3"]]} parentIDKey
           ["x"; "-1"; "3"] (-1)); reflexivity.
Defined.

(** X4: the scan of [getID] over the values of a key stops at the first
    value that parses: values after it never matter, and values before
    it that do not parse are skipped. *)
Theorem getID_values_scan (vs ws : list string) :
  (is_Some (first_parsed vs) -> getID_values (vs ++ ws) = getID_values vs) /\
  (first_parsed vs = None -> getID_values (vs ++ ws) = getID_values ws).
Proof.
  rewrite !getID_values_first_parsed, first_parsed_app. split.
  - intros [v ->]. reflexivity.
  - intros ->. reflexivity.
Qed.

Lemma getID_values_scan_witness :
  getID_values (["junk"; "0"] ++ ["7"]) = getID_values ["junk"; "0"] /\
  getID_values (["junk"; "1e3"] ++ ["7"]) = getID_values ["7"].
Proof.
  split.
  - apply (proj1 (getID_values_scan ["junk"; "0"] ["7"])). exists 0. reflexivity.
  - apply (proj2 (getID_values_scan ["junk"; "1e3"] ["7"])). reflexivity.
Defined.

(** ** Encoding, and encoding followed by decoding *)

Lemma no_inbound_ids_empty : no_inbound_ids emptyCtx.
Proof. intros k _. reflexivity. Qed.

(** What the server reads under a key of the carrier [setIDs] built. *)
Lemma getIDs_setIDs (sp : Span) (ctx : Context) :
  TraceID sp ≠ 0 ->
  getIDs (transport (setIDs (Some sp) ctx))
  = (getID_values
       (default [] (FromIncomingContext ctx ≫= fun e => e !! traceIDKey)
        ++ [Sprint (TraceID sp)]),
     getID_values
       (default [] (FromIncomingContext ctx ≫= fun e => e !! parentIDKey)
        ++ [Sprint (ParentID sp)])).
Proof.
  intros Hne.
  destruct (getID_setIDs sp ctx traceIDKey Hne) as (md & Hmd & Hkt).
  destruct (getID_setIDs sp ctx parentIDKey Hne) as (md' & Hmd' & Hkp).
  rewrite Hmd in Hmd'. injection Hmd' as <-.
  rewrite (getIDs_incoming _ md Hmd), Hkt, Hkp.
  unfold injected. rewrite decide_True by reflexivity.
  rewrite decide_False by (symmetry; apply keys_differ).
  rewrite decide_True by reflexivity. reflexivity.
Qed.

(** X5: identifiers below [2^63] survive the round trip: for a span with
    a TraceID in (0, 2^63) and a ParentID in [0, 2^63), and a context
    without inbound identifiers, what [getIDs] decodes from the carrier
    [setIDs] built is the span's pair. *)
Theorem setIDs_getIDs_roundtrip (sp : Span) (ctx : Context) :
  0 < TraceID sp < 2 ^ 63 -> 0 <= ParentID sp < 2 ^ 63 ->
  no_inbound_ids ctx ->
  getIDs (transport (setIDs (Some sp) ctx)) = (TraceID sp, ParentID sp).
Proof. apply roundtrip_below_2_63. Qed.

Lemma setIDs_getIDs_roundtrip_witness :
  getIDs (transport (setIDs (Some (span_with 9223372036854775807 34)) emptyCtx))
  = (9223372036854775807, 34).
Proof.
  apply (setIDs_getIDs_roundtrip (span_with 9223372036854775807 34) emptyCtx).
  - split; reflexivity.
  - split; [discriminate | reflexivity].
  - exact no_inbound_ids_empty.
Defined.

(** X6: every trace identifier from [2^63] up to the largest [uint64] is
    written by [setIDs] and read back as 0 by [getIDs]. *)
Theorem setIDs_getIDs_high_trace_id (sp : Span) (ctx : Context) :
  2 ^ 63 <= TraceID sp <= maxUint64 ->
  no_inbound_ids ctx ->
  (exists md, outgoingMD (setIDs (Some sp) ctx) = Some md /\
              is_Some (md !! traceIDKey)) /\
  fst (getIDs (transport (setIDs (Some sp) ctx))) = 0.
Proof.
  intros Ht Hin. split; [| apply roundtrip_lost_from_2_63; assumption].
  assert (Hne : TraceID sp ≠ 0)
    by (change (2 ^ 63) with 9223372036854775808 in Ht; lia).
  rewrite setIDs_outgoing by assumption.
  eexists; split; [reflexivity |].
  destruct (FromIncomingContext ctx) as [existing |].
  - rewrite Join_two_lookup, trace_entries_lookup, decide_True by reflexivity.
    destruct (existing !! traceIDKey); eexists; reflexivity.
  - rewrite trace_entries_lookup, decide_True by reflexivity.
    eexists; reflexivity.
Qed.

Lemma setIDs_getIDs_high_trace_id_witness :
  fst (getIDs (transport (setIDs (Some (span_with 18446744073709551615 34))
                            emptyCtx))) = 0.
Proof.
  apply (setIDs_getIDs_high_trace_id (span_with 18446744073709551615 34) emptyCtx).
  - split; [discriminate | reflexivity].
  - exact no_inbound_ids_empty.
Defined.

(** X7: calls of [setIDs] do not accumulate: after a call for any span,
    a call for a span with a trace gives the context it gives alone, so
    the entries of the first span are not kept and a repeated call
    changes nothing. *)
Theorem setIDs_last_call_wins (first : option Span) (sp : Span) (ctx : Context) :
  TraceID sp ≠ 0 ->
  setIDs (Some sp) (setIDs first ctx) = setIDs (Some sp) ctx.
Proof.
  intros Hne. rewrite !setIDs_outgoing by assumption.
  destruct first as [sp1 |]; [| reflexivity].
  unfold setIDs at 1 2.
  destruct (TraceID sp1 =? 0); reflexivity.
Qed.

Lemma setIDs_last_call_wins_witness :
  setIDs (Some (span_with 12 34)) (setIDs (Some (span_with 56 78)) serverCallCtx)
  = setIDs (Some (span_with 12 34)) serverCallCtx.
Proof.
  apply (setIDs_last_call_wins (Some (span_with 56 78)) (span_with 12 34)
           serverCallCtx).
  discriminate.
Defined.

(** X8: identifiers that came in with the surrounding call win over
    those of the client span: when the incoming metadata has a parseable
    value under both trace keys, the carrier [setIDs] builds decodes to
    what the incoming metadata decodes to, whatever the span. *)
Theorem inbound_ids_shadow_span (sp : Span) (ctx : Context) (md : MD) :
  TraceID sp ≠ 0 ->
  FromIncomingContext ctx = Some md ->
  is_Some (first_parsed (default [] (md !! traceIDKey))) ->
  is_Some (first_parsed (default [] (md !! parentIDKey))) ->
  getIDs (transport (setIDs (Some sp) ctx)) = getIDs ctx.
Proof.
  intros Hne Hmd Ht Hp.
  rewrite (getIDs_setIDs sp ctx Hne), (getIDs_incoming ctx md Hmd), Hmd.
  cbn [mbind option_bind]. unfold getID.
  destruct Ht as [t Ht]. destruct Hp as [p Hp].
  rewrite !getID_values_first_parsed, !first_parsed_app, Ht, Hp. reflexivity.
Qed.

Lemma inbound_ids_shadow_span_witness :
  getIDs (transport (setIDs (Some (span_with 77 88)) bothIDsCtx)) = (12, 34).
Proof.
  change (12, 34) with (getIDs bothIDsCtx).
  apply (inbound_ids_shadow_span (span_with 77 88) bothIDsCtx
           {[traceIDKey := ["12"]; parentIDKey := ["34"]]}).
  - discriminate.
  - reflexivity.
  - exists 12. reflexivity.
  - exists 34. reflexivity.
Defined.

(** ** The interceptors and the codec together *)

Section MoreInterceptorFacts.
Context {T : Type} `{TracerOps T} `{Defaults}.
Context {Value ClientConn CallOption : Type}.

(** X9: the client interceptor creates exactly one span, whether tracing
    is enabled or not, and runs the invoker on a context that binds it
    and keeps the incoming metadata. When the span has no trace
    (TraceID 0) the outgoing metadata of that context is the caller's;
    otherwise it holds, under each trace key, the incoming values
    followed by the identifier of the span in decimal. *)
Theorem client_interceptor_injects
    (opts : list InterceptorOption) (w0 : World T)
    (ctx : Context) (method : string) (w : World T) :
  let s0 := fst (NewChildSpan "grpc.client"
                   (activeSpan ctx ≫= fun q => spans w !! q) (tracer w)) in
  exists p ctx' w1,
    client_invokes (Value := Value) (ClientConn := ClientConn)
      (CallOption := CallOption) (fst (UnaryClientInterceptor opts w0))
      ctx method w p ctx' w1 /\
    p = length (spans w) /\
    length (spans w1) = S (length (spans w)) /\
    activeSpan ctx' = Some p /\
    incomingMD ctx' = incomingMD ctx /\
    (TraceID s0 = 0 -> outgoingMD ctx' = outgoingMD ctx) /\
    (TraceID s0 ≠ 0 ->
     exists md, outgoingMD ctx' = Some md /\
       md !! traceIDKey
       = Some (default [] (incomingMD ctx ≫= fun e => e !! traceIDKey)
               ++ [Sprint (TraceID s0)]) /\
       md !! parentIDKey
       = Some (default [] (incomingMD ctx ≫= fun e => e !! parentIDKey)
               ++ [Sprint (ParentID s0)])).
Proof.
  cbv zeta.
  pose proof (client_invokes_client_call (Value := Value)
                (ClientConn := ClientConn) (CallOption := CallOption)
                opts w0 w ctx method) as Hinv.
  rewrite client_call_run in Hinv.
  destruct (NewChildSpan "grpc.client" _ (tracer w)) as [s0 t1]. cbn [fst].
  cbv zeta in Hinv.
  set (s1 := if finished s0 then s0
             else set_Meta (<["grpc.method" := method]> (Meta s0)) s0) in *.
  assert (Hids : TraceID s1 = TraceID s0 /\ ParentID s1 = ParentID s0)
    by (unfold s1; destruct (finished s0); split; reflexivity).
  destruct Hids as [Ht Hp].
  eexists _, _, _. split; [exact Hinv |].
  split; [reflexivity |]. cbn [spans].
  split; [rewrite length_app; cbn; lia |].
  destruct (Z.eq_dec (TraceID s0) 0) as [Hz | Hnz].
  - unfold setIDs. rewrite Ht, Hz. cbn [Z.eqb].
    split; [reflexivity |]. split; [reflexivity |].
    split; [intros _; reflexivity | intros Hne; contradiction].
  - rewrite setIDs_outgoing by (rewrite Ht; exact Hnz).
    split; [reflexivity |]. split; [reflexivity |].
    split; [intros Hz; contradiction |].
    intros _. eexists. split; [reflexivity |].
    cbn [FromIncomingContext ContextWithSpan incomingMD].
    rewrite <- Ht, <- Hp.
    destruct (incomingMD ctx) as [existing |]; cbn [mbind option_bind].
    + rewrite !Join_two_lookup, !trace_entries_lookup.
      rewrite decide_True by reflexivity.
      rewrite decide_False by (symmetry; apply keys_differ).
      rewrite decide_True by reflexivity.
      destruct (existing !! traceIDKey), (existing !! parentIDKey);
        split; reflexivity.
    + rewrite !trace_entries_lookup.
      rewrite decide_True by reflexivity.
      rewrite decide_False by (symmetry; apply keys_differ).
      rewrite decide_True by reflexivity. split; reflexivity.
Qed.

(** X10: a server continues the trace a client sent: for a client span
    with TraceID and ParentID in (0, 2^63) and a context without inbound
    identifiers, [serverSpan] on the context that arrives gives a span
    with the client span's TraceID and the client span's ParentID. *)
Theorem serverSpan_continues_client
    (sp : Span) (ctx : Context) (method service : string) (w : World T) :
  0 < TraceID sp < 2 ^ 63 -> 0 < ParentID sp < 2 ^ 63 ->
  no_inbound_ids ctx ->
  let '(p, w') := serverSpan (transport (setIDs (Some sp) ctx)) method service w in
  exists s, spans w' !! p = Some s /\
            TraceID s = TraceID sp /\ ParentID s = ParentID sp.
Proof.
  intros Ht Hp Hin. rewrite serverSpan_run.
  destruct (NewRootSpan "grpc.server" service method (tracer w)) as [s0 t1].
  eexists. cbn [spans]. split; [apply lookup_new |].
  unfold server_span_of.
  rewrite roundtrip_below_2_63 by (assumption || lia).
  destruct (Z.eqb_spec (TraceID sp) 0); [lia |].
  destruct (Z.eqb_spec (ParentID sp) 0); [lia |].
  split; reflexivity.
Qed.

(** X11: a client span without a parent is not continued: when the span
    has a TraceID but ParentID 0, the carrier holds the parent "0", the
    server decodes the parent 0, and [serverSpan] keeps the TraceID and
    ParentID the tracer assigned to its new span. *)
Theorem serverSpan_ignores_parentless_client
    (sp : Span) (ctx : Context) (method service : string) (w : World T) :
  TraceID sp ≠ 0 -> ParentID sp = 0 ->
  no_inbound_ids ctx ->
  snd (getIDs (transport (setIDs (Some sp) ctx))) = 0 /\
  let '(s0, _) := NewRootSpan "grpc.server" service method (tracer w) in
  let '(p, w') := serverSpan (transport (setIDs (Some sp) ctx)) method service w in
  exists s, spans w' !! p = Some s /\
            TraceID s = TraceID s0 /\ ParentID s = ParentID s0.
Proof.
  intros Ht Hp Hin.
  assert (Hdec : snd (getIDs (transport (setIDs (Some sp) ctx))) = 0).
  { rewrite (getIDs_setIDs sp ctx Ht). cbn [snd].
    rewrite getID_values_first_parsed, first_parsed_app.
    rewrite Hin by auto. rewrite Hp. reflexivity. }
  split; [exact Hdec |].
  rewrite serverSpan_run.
  destruct (NewRootSpan "grpc.server" service method (tracer w)) as [s0 t1].
  eexists. cbn [spans]. split; [apply lookup_new |].
  unfold server_span_of.
  destruct (getIDs (transport (setIDs (Some sp) ctx))) as [traceID parentID].
  cbn [snd] in Hdec. subst parentID. rewrite andb_false_r.
  destruct (finished s0); split; reflexivity.
Qed.

(** X12: constructing an interceptor registers its service once, under a
    name that is never empty, with the kind "grpc-server" resp.
    "grpc-client", and allocates no span: the name is the one the
    defaults and the options leave, or "grpc.server" resp. "grpc.client"
    when they leave none. *)
Theorem interceptors_register_service
    (opts : list InterceptorOption) (w0 : World T) :
  let left := serviceName (foldl (fun c fn => fn c) (defaults (mkConfig "")) opts) in
  let server := serviceName (configure opts "grpc.server") in
  let client := serviceName (configure opts "grpc.client") in
  server ≠ "" /\ client ≠ "" /\
  (left = "" -> server = "grpc.server" /\ client = "grpc.client") /\
  (left ≠ "" -> server = left /\ client = left) /\
  snd (UnaryServerInterceptor (Value := Value) opts w0)
  = mkWorld (spans w0)
      (SetServiceInfo server "grpc-server" AppTypeRPC (tracer w0)) /\
  snd (UnaryClientInterceptor (Value := Value) (ClientConn := ClientConn)
         (CallOption := CallOption) opts w0)
  = mkWorld (spans w0)
      (SetServiceInfo client "grpc-client" AppTypeRPC (tracer w0)).
Proof.
  cbv zeta.
  assert (Hnames :
    let left := serviceName (foldl (fun c fn => fn c) (defaults (mkConfig "")) opts) in
    forall name, name ≠ "" ->
      serviceName (configure opts name) ≠ "" /\
      (left = "" -> serviceName (configure opts name) = name) /\
      (left ≠ "" -> serviceName (configure opts name) = left)).
  { cbv zeta. intros name Hname. unfold configure.
    destruct (String.eqb_spec
                (serviceName (foldl (fun c fn => fn c) (defaults (mkConfig "")) opts))
                "") as [Hempty | Hset].
    - split; [exact Hname |].
      split; [intros _; reflexivity | intros Hne; contradiction].
    - split; [exact Hset |].
      split; [intros Hempty; contradiction | intros _; reflexivity]. }
  cbv zeta in Hnames.
  destruct (Hnames "grpc.server" ltac:(discriminate)) as (Hs & Hs0 & Hs1).
  destruct (Hnames "grpc.client" ltac:(discriminate)) as (Hc & Hc0 & Hc1).
  split; [exact Hs |]. split; [exact Hc |].
  split; [intros Hempty; split; auto |].
  split; [intros Hset; split; auto |].
  split; reflexivity.
Qed.

End MoreInterceptorFacts.

Lemma client_interceptor_injects_witness :
  Enabled (tracer (world false)) = false /\
  fst (fst (UnaryClientInterceptor [] (world false)) emptyCtx
         "/pkg.Service/Method" "request" "reply" tt carrier_probing_invoker []
         (world false))
  = Some (otherError "41") /\
  length (spans (snd (fst (UnaryClientInterceptor [] (world false)) emptyCtx
                        "/pkg.Service/Method" "request" "reply" tt
                        carrier_probing_invoker [] (world false))))
  = 1%nat.
Proof.
  pose proof (client_interceptor_injects (Value := string) (ClientConn := unit)
                (CallOption := unit) [] (world false) emptyCtx
                "/pkg.Service/Method" (world false)) as Hc.
  cbv zeta in Hc.
  destruct Hc as (p & ctx' & w1 & Hinv & _ & Hlen & _ & _ & _ & Hinj).
  destruct (Hinj ltac:(discriminate)) as (md & Hmd & Ht & _).
  split; [reflexivity |].
  rewrite (Hinv "request" "reply" tt carrier_probing_invoker []).
  unfold carrier_probing_invoker at 1 2. unfold ret at 1 2.
  rewrite Hmd. cbn [mbind option_bind]. rewrite Ht.
  split; [reflexivity |].
  cbn [snd]. unfold FinishWithErr, SetMeta, update, modify.
  cbn [snd spans].
  destruct (alter _ p (spans w1) !! p) as [s |] eqn:Hs.
  - destruct (finished s); cbn [snd spans];
      rewrite ?length_insert, length_alter; exact Hlen.
  - cbn [snd spans]. rewrite length_alter. exact Hlen.
Defined.

Lemma serverSpan_continues_client_witness :
  exists s,
    spans (snd (serverSpan (transport (setIDs (Some (span_with 12 34)) emptyCtx))
                  "/pkg.Service/Method" "grpc.server" (world true)))
      !! 0%nat = Some s /\
    TraceID s = 12 /\ ParentID s = 34.
Proof.
  pose proof (serverSpan_continues_client (span_with 12 34) emptyCtx
                "/pkg.Service/Method" "grpc.server" (world true)
                ltac:(split; reflexivity) ltac:(split; reflexivity)
                no_inbound_ids_empty) as Hs.
  destruct (serverSpan (transport (setIDs (Some (span_with 12 34)) emptyCtx))
              "/pkg.Service/Method" "grpc.server" (world true))
    as [p w'] eqn:Hrun.
  assert (Hp : p = 0%nat) by (vm_compute in Hrun; congruence).
  subst p. exact Hs.
Defined.

Lemma serverSpan_ignores_parentless_client_witness :
  fst (getIDs (transport (setIDs (Some (span_with 12 0)) emptyCtx))) = 12 /\
  snd (getIDs (transport (setIDs (Some (span_with 12 0)) emptyCtx))) = 0.
Proof.
  split; [reflexivity |].
  apply (serverSpan_ignores_parentless_client (span_with 12 0) emptyCtx
           "/pkg.Service/Method" "grpc.server" (world true)).
  - discriminate.
  - reflexivity.
  - exact no_inbound_ids_empty.
Defined.

Lemma interceptors_register_service_witness :
  serviceName (configure [fun _ => mkConfig "payments"] "grpc.server") = "payments" /\
  serviceName (configure [] "grpc.client") = "grpc.client" /\
  services (tracer (snd (UnaryServerInterceptor (Value := string)
                           [fun _ => mkConfig "payments"] (world true))))
  = [("payments", "grpc-server", "rpc")].
Proof.
  pose proof (interceptors_register_service (Value := string)
                (ClientConn := unit) (CallOption := unit)
                [fun _ => mkConfig "payments"] (world true))
    as (_ & _ & _ & Hset & Hserver & _).
  pose proof (interceptors_register_service (Value := string)
                (ClientConn := unit) (CallOption := unit)
                [] (world true))
    as (_ & _ & Hempty & _).
  split; [exact (proj1 (Hset ltac:(discriminate))) |].
  split; [exact (proj2 (Hempty eq_refl)) |].
  rewrite Hserver. reflexivity.
Defined.

Section EndToEnd.
Context {T : Type} `{TracerOps T} `{Defaults}.
Context {Value ClientConn CallOption : Type}.

(** X14: from the client interceptor to the server: when the span the
    client interceptor starts has TraceID and ParentID in (0, 2^63) and
    the caller's context has no inbound identifiers, [serverSpan] on
    what arrives of the context the invoker is run on (for any tracer
    [T'] of the server, in any world) gives a span with that TraceID and
    that ParentID. *)
Theorem client_call_continued_by_server
    {T' : Type} `{TracerOps T'}
    (opts : list InterceptorOption) (w0 : World T)
    (ctx : Context) (method service : string) (w : World T) (ws : World T') :
  let s0 := fst (NewChildSpan "grpc.client"
                   (activeSpan ctx ≫= fun q => spans w !! q) (tracer w)) in
  0 < TraceID s0 < 2 ^ 63 -> 0 < ParentID s0 < 2 ^ 63 ->
  no_inbound_ids ctx ->
  exists p ctx' w1,
    client_invokes (Value := Value) (ClientConn := ClientConn)
      (CallOption := CallOption) (fst (UnaryClientInterceptor opts w0))
      ctx method w p ctx' w1 /\
    let '(q, w') := serverSpan (transport ctx') method service ws in
    exists s, spans w' !! q = Some s /\
              TraceID s = TraceID s0 /\ ParentID s = ParentID s0.
Proof.
  cbv zeta. intros Ht Hp Hin.
  pose proof (client_invokes_client_call (Value := Value)
                (ClientConn := ClientConn) (CallOption := CallOption)
                opts w0 w ctx method) as Hinv.
  rewrite client_call_run in Hinv.
  destruct (NewChildSpan "grpc.client" _ (tracer w)) as [s0 t1].
  cbn [fst] in Ht, Hp. cbv zeta in Hinv.
  set (s1 := if finished s0 then s0
             else set_Meta (<["grpc.method" := method]> (Meta s0)) s0) in *.
  assert (Hids : TraceID s1 = TraceID s0 /\ ParentID s1 = ParentID s0)
    by (unfold s1; destruct (finished s0); split; reflexivity).
  destruct Hids as [Ht1 Hp1].
  eexists _, _, _. split; [exact Hinv |].
  rewrite (serverSpan_run (T := T')).
  destruct (NewRootSpan "grpc.server" service method (tracer ws)) as [r0 t2].
  eexists. cbn [spans fst]. split; [apply lookup_new |].
  unfold server_span_of.
  rewrite roundtrip_below_2_63; rewrite ?Ht1, ?Hp1; try assumption; try lia.
  destruct (Z.eqb_spec (TraceID s0) 0); [lia |].
  destruct (Z.eqb_spec (ParentID s0) 0); [lia |].
  split; reflexivity.
Qed.

End EndToEnd.

Lemma client_call_continued_by_server_witness :
  exists p ctx' w1,
    client_invokes (Value := string) (ClientConn := unit) (CallOption := unit)
      (fst (UnaryClientInterceptor [] (world false)))
      emptyCtx "/pkg.Service/Method" (world false) p ctx' w1 /\
    exists s,
      spans (snd (serverSpan (transport ctx') "/pkg.Service/Method"
                    "grpc.server" (world true))) !! 0%nat = Some s /\
      TraceID s = 41 /\ ParentID s = 41.
Proof.
  pose proof (client_call_continued_by_server (Value := string)
                (ClientConn := unit) (CallOption := unit)
                [] (world false) emptyCtx "/pkg.Service/Method"
                "grpc.server" (world false) (world true)
                ltac:(split; reflexivity) ltac:(split; reflexivity)
                no_inbound_ids_empty) as (p & ctx' & w1 & Hinv & Hs).
  exists p, ctx', w1. split; [exact Hinv |].
  destruct (serverSpan (transport ctx') "/pkg.Service/Method" "grpc.server"
              (world true)) as [q w'] eqn:Hrun.
  assert (Hq : q = 0%nat).
  { rewrite serverSpan_run in Hrun.
    destruct (NewRootSpan "grpc.server" "grpc.server" "/pkg.Service/Method"
                (tracer (world true))) as [r0 t2].
    injection Hrun as <- _. reflexivity. }
  subst q. exact Hs.
Defined.
